(** * rlog: filter resolution, configuration merge and dispatch gate

    A shallow embedding of [rlog.go] (package [rlog]) and of the functions of
    Go's standard library that it calls, followed by the properties of the
    filter engine, the configuration merger and the dispatch gate.

    Conventions.
    - A Go [string] is a sequence of bytes: [string], one [ascii] per byte.
    - A Go [int] is a 64-bit integer, held in [Z]; the only arithmetic the
      program does on levels is comparison.
    - The operating system is a Unix ([filepath.Separator] is '/', '\' is
      the escape character of [filepath.Match]).
    - Library functions that consult the Unicode tables ([strings.ToUpper] and
      [strings.TrimSpace] on a string holding a byte >= 0x80) take the table
      driven part from the class [Unicode]; on ASCII strings they are
      the library's own fast paths, byte for byte. *)

From Stdlib Require Import ZArith List String Ascii Bool Lia Sorted.
Import ListNotations.

Local Open Scope string_scope.
Local Open Scope Z_scope.

(** ** Bytes and slices *)

Definition byte (c : ascii) : Z := Z.of_N (N_of_ascii c).

(** [s[n:]] for [n <= len(s)] *)
Fixpoint skip (n : nat) (s : string) : string :=
  match n, s with
  | O, _ => s
  | S n', String _ t => skip n' t
  | S _, EmptyString => EmptyString
  end.

(** [s == ""] *)
Definition isEmpty (s : string) : bool :=
  match s with EmptyString => true | String _ _ => false end.

(** the bytes of [s] in reverse order *)
Fixpoint rev (s : string) : string :=
  match s with
  | EmptyString => EmptyString
  | String c t => rev t ++ String c EmptyString
  end.

(** [s[:len(s)-1]] for a non-empty [s] *)
Fixpoint dropLast (s : string) : string :=
  match s with
  | EmptyString => EmptyString
  | String c EmptyString => EmptyString
  | String c t => String c (dropLast t)
  end.

(** [strings.IndexByte(s, c) >= 0] *)
Fixpoint hasByte (c : ascii) (s : string) : bool :=
  match s with
  | EmptyString => false
  | String d t => Ascii.eqb d c || hasByte c t
  end.

(** [(s[:i+1], s[i+1:])] where [i] is the last index of the byte [c] in [s],
    and [-1] when [s] does not hold it. *)
Fixpoint cutAfterLast (c : ascii) (s : string) : string * string :=
  match s with
  | EmptyString => (EmptyString, EmptyString)
  | String d t =>
      let (h, r) := cutAfterLast c t in
      if isEmpty h
      then if Ascii.eqb d c then (String d EmptyString, r)
           else (EmptyString, String d r)
      else (String d h, r)
  end.

(** ** The tables of package [unicode]

    The case and white-space tables of Go's [unicode] package are not part of
    the repository.  The two library functions that reach them do so only on
    strings that hold a non-ASCII byte; what they return there is a field of
    this class. *)
Class Unicode : Type := {
  (** [strings.Map(unicode.ToUpper, s)] *)
  mapToUpper : string -> string;
  (** [strings.TrimFunc(s, unicode.IsSpace)] *)
  trimFuncIsSpace : string -> string;
  (** [strings.TrimRightFunc(s, unicode.IsSpace)] *)
  trimRightFuncIsSpace : string -> string
}.

(** ** Package [unicode/utf8] *)
Module utf8.

Definition RuneError : Z := 65533.
Definition RuneSelf : Z := 128.

(** What the table [first] says of a leading byte. *)
Inductive firstInfo : Type :=
| AsciiByte
| InvalidByte
| Lead (size : nat) (lo hi : Z).

Definition locb : Z := 128.
Definition hicb : Z := 191.

Definition first (b : Z) : firstInfo :=
  if b <? 128 then AsciiByte
  else if b <? 194 then InvalidByte
  else if b <? 224 then Lead 2 locb hicb
  else if b =? 224 then Lead 3 160 hicb
  else if b <? 237 then Lead 3 locb hicb
  else if b =? 237 then Lead 3 locb 159
  else if b <? 240 then Lead 3 locb hicb
  else if b =? 240 then Lead 4 144 hicb
  else if b <? 244 then Lead 4 locb hicb
  else if b =? 244 then Lead 4 locb 143
  else InvalidByte.

Definition inRange (lo hi b : Z) : bool := (lo <=? b) && (b <=? hi).

(** [utf8.DecodeRuneInString]: the rune and its width in bytes. *)
Definition DecodeRuneInString (s : string) : Z * nat :=
  match s with
  | EmptyString => (RuneError, O)
  | String c0 t0 =>
      let s0 := byte c0 in
      match first s0 with
      | AsciiByte => (s0, 1%nat)
      | InvalidByte => (RuneError, 1%nat)
      | Lead sz lo hi =>
          if (String.length s <? sz)%nat then (RuneError, 1%nat) else
          match t0 with
          | EmptyString => (RuneError, 1%nat)
          | String c1 t1 =>
              let s1 := byte c1 in
              if negb (inRange lo hi s1) then (RuneError, 1%nat) else
              if (sz <=? 2)%nat
              then (Z.lor (Z.shiftl (Z.land s0 31) 6) (Z.land s1 63), 2%nat)
              else
              match t1 with
              | EmptyString => (RuneError, 1%nat)
              | String c2 t2 =>
                  let s2 := byte c2 in
                  if negb (inRange locb hicb s2) then (RuneError, 1%nat) else
                  if (sz <=? 3)%nat
                  then (Z.lor (Z.lor (Z.shiftl (Z.land s0 15) 12)
                                     (Z.shiftl (Z.land s1 63) 6))
                              (Z.land s2 63), 3%nat)
                  else
                  match t2 with
                  | EmptyString => (RuneError, 1%nat)
                  | String c3 _ =>
                      let s3 := byte c3 in
                      if negb (inRange locb hicb s3) then (RuneError, 1%nat)
                      else (Z.lor (Z.lor (Z.lor (Z.shiftl (Z.land s0 7) 18)
                                                (Z.shiftl (Z.land s1 63) 12))
                                         (Z.shiftl (Z.land s2 63) 6))
                                  (Z.land s3 63), 4%nat)
                  end
              end
          end
      end
  end.

End utf8.

(** ** Package [strings] *)
Module strings.

(** [strings.Split(s, sep)] for a separator of one byte: the substrings
    between the separators, [[""]] for the empty string. *)
Fixpoint Split (s : string) (sep : ascii) : list string :=
  match s with
  | EmptyString => [EmptyString]
  | String c t =>
      if Ascii.eqb c sep then EmptyString :: Split t sep
      else match Split t sep with
           | [] => [String c EmptyString]
           | x :: xs => String c x :: xs
           end
  end.

(** [strings.SplitN(s, sep, 2)] for a separator of one byte: [s] cut at the
    first separator, or [[s]] when it holds none. *)
Fixpoint SplitN2 (s : string) (sep : ascii) : list string :=
  match s with
  | EmptyString => [EmptyString]
  | String c t =>
      if Ascii.eqb c sep then [EmptyString; t]
      else match SplitN2 t sep with
           | x :: xs => String c x :: xs
           | [] => [String c EmptyString]
           end
  end.

Definition isASCIIByte (c : ascii) : bool := byte c <? utf8.RuneSelf.

Fixpoint isASCII (s : string) : bool :=
  match s with
  | EmptyString => true
  | String c t => isASCIIByte c && isASCII t
  end.

(** ['a' <= c && c <= 'z'] then [c -= 'a' - 'A'] *)
Definition upperByte (c : ascii) : ascii :=
  if (97 <=? byte c) && (byte c <=? 122)
  then ascii_of_N (N_of_ascii c - 32)
  else c.

Fixpoint upperASCII (s : string) : string :=
  match s with
  | EmptyString => EmptyString
  | String c t => String (upperByte c) (upperASCII t)
  end.

(** [strings.ToUpper]: the ASCII path, and [Map(unicode.ToUpper, s)] for a
    string with a byte outside ASCII. *)
Definition ToUpper `{Unicode} (s : string) : string :=
  if isASCII s then upperASCII s else mapToUpper s.

(** The table [asciiSpace]: '\t', '\n', '\v', '\f', '\r', ' '. *)
Definition asciiSpace (c : ascii) : bool :=
  let b := byte c in ((9 <=? b) && (b <=? 13)) || (b =? 32).

(** The second loop of [strings.TrimSpace], over the reversed rest
    [s[start:]]: the bytes are visited from the end. *)
Fixpoint trimSpaceEnd `{Unicode} (r : string) : string :=
  match r with
  | EmptyString => EmptyString
  | String c t =>
      if negb (isASCIIByte c) then trimRightFuncIsSpace (rev r)
      else if asciiSpace c then trimSpaceEnd t
      else rev r
  end.

(** [strings.TrimSpace]. *)
Fixpoint TrimSpace `{Unicode} (s : string) : string :=
  match s with
  | EmptyString => EmptyString
  | String c t =>
      if negb (isASCIIByte c) then trimFuncIsSpace s
      else if asciiSpace c then TrimSpace t
      else trimSpaceEnd (rev s)
  end.

End strings.

(** ** Package [strconv] *)
Module strconv.

Definition isDigit (c : ascii) : bool := (48 <=? byte c) && (byte c <=? 57).

(** The value of a run of decimal digits, [None] when a byte is no digit. *)
Fixpoint digits (acc : Z) (s : string) : option Z :=
  match s with
  | EmptyString => Some acc
  | String c t =>
      if isDigit c then digits (acc * 10 + (byte c - 48)) t else None
  end.

Definition minInt : Z := - 2 ^ 63.
Definition maxInt : Z := 2 ^ 63 - 1.

(** [strconv.Atoi]: an optional sign and at least one decimal digit, the
    value within the range of [int]; [None] is a non-nil error. *)
Definition Atoi (s : string) : option Z :=
  let '(neg, body) :=
    match s with
    | String "-" t => (true, t)
    | String "+" t => (false, t)
    | _ => (false, s)
    end in
  if isEmpty body then None else
  match digits 0 body with
  | None => None
  | Some n =>
      let v := if neg : bool then - n else n in
      if (minInt <=? v) && (v <=? maxInt) then Some v else None
  end.

(** [strconv.ParseBool]: [None] is a non-nil error. *)
Definition ParseBool (str : string) : option bool :=
  if ((str =? "1") || (str =? "t") || (str =? "T")
      || (str =? "true") || (str =? "TRUE") || (str =? "True"))%string
  then Some true
  else if ((str =? "0") || (str =? "f") || (str =? "F")
      || (str =? "false") || (str =? "FALSE") || (str =? "False"))%string
  then Some false
  else None.

End strconv.

(** ** Package [path] *)
Module path.

(** [path.Split]: the path cut after its final slash. *)
Definition Split (p : string) : string * string := cutAfterLast "/" p.

End path.

(** ** Package [path/filepath] (Unix) *)
Module filepath.

(** The loop of [filepath.Base] that strips trailing slashes. *)
Fixpoint stripTrailingSlashes (p : string) : string :=
  match p with
  | EmptyString => EmptyString
  | String c t =>
      let t' := stripTrailingSlashes t in
      if Ascii.eqb c "/" && isEmpty t' then EmptyString else String c t'
  end.

(** [filepath.Base]: the last element of the path; "." for the empty path and
    "/" for a path of slashes only. *)
Definition Base (p : string) : string :=
  if isEmpty p then "." else
  let p1 := stripTrailingSlashes p in
  let p2 := snd (cutAfterLast "/" p1) in
  if isEmpty p2 then "/" else p2.

(** The first loop of [scanChunk]: the leading stars are dropped. *)
Fixpoint dropStars (p : string) : bool * string :=
  match p with
  | String "*" t => (true, snd (dropStars t))
  | _ => (false, p)
  end.

(** The loop labelled [Scan] of [scanChunk]: [(pattern[0:i], pattern[i:])],
    where [i] is the index of the first star outside a character class. *)
Fixpoint scanLoop (inrange : bool) (p : string) : string * string :=
  match p with
  | EmptyString => (EmptyString, EmptyString)
  | String c t =>
      if Ascii.eqb c "\" then
        match t with
        | EmptyString => (String c EmptyString, EmptyString)
        | String c2 t2 =>
            let (a, b) := scanLoop inrange t2 in (String c (String c2 a), b)
        end
      else if Ascii.eqb c "[" then
        let (a, b) := scanLoop true t in (String c a, b)
      else if Ascii.eqb c "]" then
        let (a, b) := scanLoop false t in (String c a, b)
      else if Ascii.eqb c "*" then
        if inrange then let (a, b) := scanLoop inrange t in (String c a, b)
        else (EmptyString, p)
      else let (a, b) := scanLoop inrange t in (String c a, b)
  end.

(** [scanChunk]: [(star, chunk, rest)]. *)
Definition scanChunk (pattern : string) : bool * string * string :=
  let (star, p) := dropStars pattern in
  let (chunk, rest) := scanLoop false p in
  (star, chunk, rest).

(** [getEsc]: a possibly escaped character of a character class and the
    chunk after it; [None] is [ErrBadPattern]. *)
Definition getEsc (chunk : string) : option (Z * string) :=
  match chunk with
  | EmptyString => None
  | String c t =>
      if Ascii.eqb c "-" || Ascii.eqb c "]" then None else
      let chunk1 := if Ascii.eqb c "\" then t else chunk in
      if isEmpty chunk1 then None else
      let (r, n) := utf8.DecodeRuneInString chunk1 in
      let nchunk := skip n chunk1 in
      if (r =? utf8.RuneError) && (n =? 1)%nat then None
      else if isEmpty nchunk then None
      else Some (r, nchunk)
  end.

(** What the loop over the ranges of a character class ends with. *)
Inductive classResult : Type :=
| ClassErr
| ClassEnd (chunk : string) (matched : bool).

(** The loop "parse all ranges" of [matchChunk], for the rune [r] read from the
    name.  Every turn shortens [chunk]; [None] is an exhausted [fuel]. *)
Fixpoint parseRanges (fuel : nat) (chunk : string) (r : Z)
         (nrange : nat) (matched : bool) : option classResult :=
  match fuel with
  | O => None
  | S fuel' =>
      let closing :=
        match chunk with
        | String "]" t => if (0 <? nrange)%nat then Some t else None
        | _ => None
        end in
      match closing with
      | Some t => Some (ClassEnd t matched)
      | None =>
          match getEsc chunk with
          | None => Some ClassErr
          | Some (lo, chunk1) =>
              match chunk1 with
              | String "-" t1 =>
                  match getEsc t1 with
                  | None => Some ClassErr
                  | Some (hi, chunk2) =>
                      parseRanges fuel' chunk2 r (S nrange)
                                  (matched || ((lo <=? r) && (r <=? hi)))
                  end
              | _ =>
                  parseRanges fuel' chunk1 r (S nrange)
                              (matched || ((lo <=? r) && (r <=? lo)))
              end
          end
      end
  end.

(** What [matchChunk] returns: [(rest, true, nil)], [("", false, nil)] or
    [("", false, ErrBadPattern)]. *)
Inductive chunkResult : Type :=
| ChunkOk (rest : string)
| ChunkFail
| ChunkErr.

(** The loop of [matchChunk], [failed] being its flag.  Every turn shortens
    [chunk]; [None] is an exhausted [fuel]. *)
Fixpoint matchChunkLoop (fuel : nat) (chunk s : string) (failed : bool)
  : option chunkResult :=
  match fuel with
  | O => None
  | S fuel' =>
      match chunk with
      | EmptyString => Some (if failed then ChunkFail else ChunkOk s)
      | String c ct =>
          let failed := failed || isEmpty s in
          if Ascii.eqb c "[" then
            let '(r, s1) :=
              if failed then (0, s)
              else let (r, n) := utf8.DecodeRuneInString s in (r, skip n s) in
            let '(negated, chunk1) :=
              match ct with
              | String "^" t => (true, t)
              | _ => (false, ct)
              end in
            match parseRanges (S (String.length chunk1)) chunk1 r 0 false with
            | None => None
            | Some ClassErr => Some ChunkErr
            | Some (ClassEnd chunk2 m) =>
                matchChunkLoop fuel' chunk2 s1 (failed || Bool.eqb m negated)
            end
          else if Ascii.eqb c "?" then
            if failed then matchChunkLoop fuel' ct s failed
            else
              let failed1 :=
                match s with
                | String s0 _ => Ascii.eqb s0 "/"
                | EmptyString => false
                end in
              let (_, n) := utf8.DecodeRuneInString s in
              matchChunkLoop fuel' ct (skip n s) failed1
          else
            (* a literal byte, after the backslash of an escape *)
            let lit :=
              if Ascii.eqb c "\" then
                match ct with
                | EmptyString => None
                | String c2 t2 => Some (c2, t2)
                end
              else Some (c, ct) in
            match lit with
            | None => Some ChunkErr
            | Some (c0, rest) =>
                if failed then matchChunkLoop fuel' rest s failed
                else
                  match s with
                  | String s0 st =>
                      matchChunkLoop fuel' rest st (negb (Ascii.eqb c0 s0))
                  | EmptyString => matchChunkLoop fuel' rest s true
                  end
            end
      end
  end.

(** [matchChunk(chunk, s)]. *)
Definition matchChunk (chunk s : string) : option chunkResult :=
  matchChunkLoop (S (String.length chunk)) chunk s false.

(** What the loop over the skipped bytes of a star ends with. *)
Inductive skipResult : Type :=
| SkipFound (name : string)
| SkipNone
| SkipErr.

(** The loop of [Match] for a chunk after a star: [matchChunk] is tried at
    [name[i+1:]] for every [i] before the first slash.  [lastChunk] is
    [len(pattern) == 0]. *)
Fixpoint starSkip (chunk : string) (lastChunk : bool) (name : string)
  : option skipResult :=
  match name with
  | EmptyString => Some SkipNone
  | String c t =>
      if Ascii.eqb c "/" then Some SkipNone else
      match matchChunk chunk t with
      | None => None
      | Some (ChunkOk t') =>
          if lastChunk && negb (isEmpty t') then starSkip chunk lastChunk t
          else Some (SkipFound t')
      | Some ChunkErr => Some SkipErr
      | Some ChunkFail => starSkip chunk lastChunk t
      end
  end.

(** The loop labelled [Pattern] of [Match]: [(matched, err != nil)].  Every
    turn shortens [pattern]; [None] is an exhausted [fuel]. *)
Fixpoint matchLoop (fuel : nat) (pattern name : string)
  : option (bool * bool) :=
  match fuel with
  | O => None
  | S fuel' =>
      if isEmpty pattern then Some (isEmpty name, false) else
      let '(star, chunk, rest) := scanChunk pattern in
      if star && isEmpty chunk then Some (negb (hasByte "/" name), false) else
      let afterStar :=
        if star then
          match starSkip chunk (isEmpty rest) name with
          | None => None
          | Some (SkipFound t) => matchLoop fuel' rest t
          | Some SkipErr => Some (false, true)
          | Some SkipNone => Some (false, false)
          end
        else Some (false, false) in
      match matchChunk chunk name with
      | None => None
      | Some (ChunkOk t) =>
          if isEmpty t || negb (isEmpty rest) then matchLoop fuel' rest t
          else afterStar
      | Some ChunkErr => Some (false, true)
      | Some ChunkFail => afterStar
      end
  end.

(** [filepath.Match(pattern, name)]: [(matched, err != nil)]. *)
Definition Match (pattern name : string) : bool * bool :=
  match matchLoop (S (String.length pattern)) pattern name with
  | Some r => r
  | None => (false, false)
  end.

End filepath.

(** ** Package [rlog]: levels and filters *)

Definition notATrace : Z := -1.
Definition noTraceOutput : Z := -1.

Definition levelNone : Z := 0.
Definition levelCrit : Z := 1.
Definition levelErr : Z := 2.
Definition levelWarn : Z := 3.
Definition levelInfo : Z := 4.
Definition levelDebug : Z := 5.
Definition levelTrace : Z := 6.

(** The map [levelNumbers]; [None] is a missing key. *)
Definition levelNumbers (name : string) : option Z :=
  if (name =? "TRACE")%string then Some levelTrace
  else if (name =? "DEBUG")%string then Some levelDebug
  else if (name =? "INFO")%string then Some levelInfo
  else if (name =? "WARN")%string then Some levelWarn
  else if (name =? "ERROR")%string then Some levelErr
  else if (name =? "CRITICAL")%string then Some levelCrit
  else if (name =? "NONE")%string then Some levelNone
  else None.

Record filter : Type := mkFilter { Pattern : string; Level : Z }.

Record filterSpec : Type := mkFilterSpec { filters : list filter }.

(** [filter.match]: [(matched, loggit)]. *)
Definition filter_match (f : filter) (filename : string) (level : Z)
  : bool * bool :=
  let matched :=
    if negb (isEmpty (Pattern f))
    then fst (filepath.Match (Pattern f) (filepath.Base filename))
    else true in
  if matched then (true, level <=? Level f) else (false, false).

(** The [range] loop of [matchfilters]. *)
Fixpoint matchfilters_range (fs : list filter) (filename : string) (level : Z)
  : bool :=
  match fs with
  | [] => false
  | f :: rest =>
      let (matched, loggit) := filter_match f filename level in
      if matched then loggit else matchfilters_range rest filename level
  end.

(** [filterSpec.matchfilters]. *)
Definition matchfilters (spec : filterSpec) (filename : string) (level : Z)
  : bool :=
  if (List.length (filters spec) =? 0)%nat then false
  else matchfilters_range (filters spec) filename level.

(** ** Package [rlog]: the dispatch gate *)

(** The caller information of [basicLog]: [moduleAndFileName], from what
    [runtime.Caller] returned ([None] when its [ok] is false). *)
Definition moduleAndFileName (caller : option string) : string :=
  match caller with
  | None => EmptyString
  | Some fullFilePath =>
      let (dirPath, fileName) := path.Split fullFilePath in
      let moduleName :=
        if negb (isEmpty dirPath)
        then snd (path.Split (dropLast dirPath))
        else EmptyString in
      moduleName ++ "/" ++ fileName
  end.

(** The test of [basicLog] that decides [allowLog]. *)
Definition basicLog_allowLog (logFilterSpec traceFilterSpec : filterSpec)
           (caller : option string) (logLevel traceLevel : Z) : bool :=
  let name := moduleAndFileName caller in
  if traceLevel =? notATrace
  then matchfilters logFilterSpec name logLevel
  else matchfilters traceFilterSpec name traceLevel.

(** Whether [Trace] (and [Tracef]) writes its message. *)
Definition Trace_allowLog (logFilterSpec traceFilterSpec : filterSpec)
           (caller : option string) (traceLevel : Z) : bool :=
  if (0 <? List.length (filters traceFilterSpec))%nat
  then basicLog_allowLog logFilterSpec traceFilterSpec caller
                         levelTrace traceLevel
  else false.

(** ** Package [rlog]: configuration *)

Record rlogEnvConfig : Type := mkConfig {
  logLevel : string;
  traceLevel : string;
  logTimeFormat : string;
  logFile : string;
  confFile : string;
  logStream : string;
  logNoTime : string;
  showCallerInfo : string
}.

(** [updateIfNeeded]. *)
Definition updateIfNeeded (oldVal newVal : string) (priority : bool) : string :=
  if priority || isEmpty oldVal then newVal else oldVal.

(** What [updateConfigFromFile] writes to [os.Stderr], by line number. *)
Inductive diagnostic : Type :=
| MalformedLine (i : Z) (tokens : list string)
| ConfFileIgnored (i : Z)
| UnknownSetting (i : Z).

(** A Go call either returns or panics. *)
Inductive outcome (A : Type) : Type :=
| Returned (a : A)
| Panicked.
Arguments Returned {A} a.
Arguments Panicked {A}.

Section Model.
Context `{Unicode}.

(** One turn of the loop of [fromString] over the fields: the state is
    [spec.filters] and [globalLevel]; a [continue] leaves it as it is. *)
Definition fromString_field (isTraceLevels : bool) (st : list filter * Z)
           (f : string) : list filter * Z :=
  let (fs, globalLevel) := st in
  let tokens := strings.Split f "=" in
  let parts :=
    match tokens with
    | [t0] => Some (EmptyString, t0)
    | [t0; t1] => Some (t0, t1)
    | _ => None
    end in
  match parts with
  | None => st
  | Some (matchToken, levelToken) =>
      let parsed :=
        if isTraceLevels then strconv.Atoi levelToken
        else
          let levelToken := strings.ToUpper levelToken in
          match levelNumbers levelToken with
          | Some filterLevel =>
              if filterLevel =? levelTrace then None else Some filterLevel
          | None => None
          end in
      match parsed with
      | None => st
      | Some filterLevel =>
          if isEmpty matchToken then (fs, filterLevel)
          else ((fs ++ [mkFilter matchToken filterLevel])%list, globalLevel)
      end
  end.

(** [filterSpec.fromString]: the spec it leaves behind. *)
Definition fromString (spec : filterSpec) (s : string) (isTraceLevels : bool)
           (globalLevelDefault : Z) : filterSpec :=
  let fields := strings.Split s "," in
  let (fs, globalLevel) :=
    fold_left (fromString_field isTraceLevels) fields
              (filters spec, globalLevelDefault) in
  if negb isTraceLevels || negb (globalLevel =? noTraceOutput)
  then mkFilterSpec (fs ++ [mkFilter EmptyString globalLevel])%list
  else mkFilterSpec fs.

(** Lines 290 to 321 of [updateConfigFromFile]: the priority mark and the
    [switch] over the setting name, for line number [i].  [name[0]] panics
    on an empty name. *)
Definition applySetting (config : rlogEnvConfig) (stderr : list diagnostic)
           (i : Z) (name val : string)
  : outcome (rlogEnvConfig * list diagnostic) :=
  match name with
  | EmptyString => Panicked
  | String c0 rest =>
      let priority := Ascii.eqb c0 "!" in
      let name := if priority then rest else name in
      let c := config in
      if (name =? "RLOG_LOG_LEVEL")%string then
        Returned (mkConfig (updateIfNeeded (logLevel c) val priority)
                    (traceLevel c) (logTimeFormat c) (logFile c) (confFile c)
                    (logStream c) (logNoTime c) (showCallerInfo c), stderr)
      else if (name =? "RLOG_TRACE_LEVEL")%string then
        Returned (mkConfig (logLevel c)
                    (updateIfNeeded (traceLevel c) val priority)
                    (logTimeFormat c) (logFile c) (confFile c)
                    (logStream c) (logNoTime c) (showCallerInfo c), stderr)
      else if (name =? "RLOG_TIME_FORMAT")%string then
        Returned (mkConfig (logLevel c) (traceLevel c)
                    (updateIfNeeded (logTimeFormat c) val priority)
                    (logFile c) (confFile c)
                    (logStream c) (logNoTime c) (showCallerInfo c), stderr)
      else if (name =? "RLOG_LOG_FILE")%string then
        Returned (mkConfig (logLevel c) (traceLevel c) (logTimeFormat c)
                    (updateIfNeeded (logFile c) val priority) (confFile c)
                    (logStream c) (logNoTime c) (showCallerInfo c), stderr)
      else if (name =? "RLOG_CONF_FILE")%string then
        Returned (c, (stderr ++ [ConfFileIgnored i])%list)
      else if (name =? "RLOG_LOG_STREAM")%string then
        let val := strings.ToUpper val in
        Returned (mkConfig (logLevel c) (traceLevel c) (logTimeFormat c)
                    (logFile c) (confFile c)
                    (updateIfNeeded (logStream c) val priority)
                    (logNoTime c) (showCallerInfo c), stderr)
      else if (name =? "RLOG_LOG_NOTIME")%string then
        Returned (mkConfig (logLevel c) (traceLevel c) (logTimeFormat c)
                    (logFile c) (confFile c) (logStream c)
                    (updateIfNeeded (logNoTime c) val priority)
                    (showCallerInfo c), stderr)
      else if (name =? "RLOG_CALLER_INFO")%string then
        Returned (mkConfig (logLevel c) (traceLevel c) (logTimeFormat c)
                    (logFile c) (confFile c) (logStream c) (logNoTime c)
                    (updateIfNeeded (showCallerInfo c) val priority), stderr)
      else
        Returned (c, (stderr ++ [UnknownSetting i])%list)
  end.

(** The body of the loop of [updateConfigFromFile] for the line [text] that
    the scanner returned, [i] being the line number after [i++]. *)
Definition updateConfigLine (config : rlogEnvConfig)
           (stderr : list diagnostic) (i : Z) (text : string)
  : outcome (rlogEnvConfig * list diagnostic) :=
  let line := strings.TrimSpace text in
  if isEmpty line then Returned (config, stderr) else
  let tokens := strings.SplitN2 line "=" in
  if (List.length tokens =? 0)%nat then Returned (config, stderr) else
  match tokens with
  | [t0; t1] =>
      let name := strings.TrimSpace t0 in
      let val := strings.TrimSpace t1 in
      applySetting config stderr i name val
  | _ => Returned (config, (stderr ++ [MalformedLine i tokens])%list)
  end.

(** The loop [for scanner.Scan()] over the lines of the file. *)
Fixpoint scanLines (config : rlogEnvConfig) (stderr : list diagnostic)
         (i : Z) (lines : list string)
  : outcome (rlogEnvConfig * list diagnostic) :=
  match lines with
  | [] => Returned (config, stderr)
  | text :: rest =>
      let i := i + 1 in
      match updateConfigLine config stderr i text with
      | Returned (config', stderr') => scanLines config' stderr' i rest
      | Panicked => Panicked
      end
  end.

(** [updateConfigFromFile]: [file] is [None] when [os.Open] fails, and
    otherwise the lines that the scanner returns, in order.  The result is the
    merged configuration and what was written to [os.Stderr]. *)
Definition updateConfigFromFile (file : option (list string))
           (config : rlogEnvConfig)
  : outcome (rlogEnvConfig * list diagnostic) :=
  match file with
  | None => Returned (config, [])
  | Some lines => scanLines config [] 0 lines
  end.

(** [isTrueBoolString]. *)
Definition isTrueBoolString (str : string) : bool :=
  let str := strings.ToUpper str in
  if ((str =? "Y") || (str =? "YES"))%string then true
  else
    match strconv.ParseBool str with
    | Some true => true
    | _ => false
    end.

End Model.

(** ** Vocabulary of the properties

    The definitions below do not come from [rlog.go]: they say, in the words
    of the specification, what the functions above are compared with. *)

(** The number of bytes [c] in [s]. *)
Fixpoint countByte (c : ascii) (s : string) : nat :=
  match s with
  | EmptyString => O
  | String d t => ((if Ascii.eqb d c then 1 else 0) + countByte c t)%nat
  end.

(** The text before the first byte [c] of [s], all of [s] when it has none. *)
Fixpoint beforeFirst (c : ascii) (s : string) : string :=
  match s with
  | EmptyString => EmptyString
  | String d t => if Ascii.eqb d c then EmptyString
                  else String d (beforeFirst c t)
  end.

(** The text after the first byte [c] of [s], empty when it has none. *)
Fixpoint afterFirst (c : ascii) (s : string) : string :=
  match s with
  | EmptyString => EmptyString
  | String d t => if Ascii.eqb d c then t else afterFirst c t
  end.

(** The elements of a list of options that are present, in order. *)
Fixpoint present {A : Type} (l : list (option A)) : list A :=
  match l with
  | [] => []
  | Some a :: t => a :: present t
  | None :: t => present t
  end.

(** The first rule of a sequence whose pattern matches the query. *)
Definition firstMatching (rules : list filter) (fileName : string) (level : Z)
  : option filter :=
  find (fun f => fst (filter_match f fileName level)) rules.

(** A token of a filter specification is [level] or [pattern=level]: its
    pattern (empty for the first form) and its level. *)
Definition tokenPattern (tok : string) : string :=
  if hasByte "=" tok then beforeFirst "=" tok else EmptyString.

Definition tokenLevel (tok : string) : string :=
  if hasByte "=" tok then afterFirst "=" tok else tok.

Section Vocabulary.
Context `{Unicode}.

(** The threshold that a level names on an axis: an integer on the trace
    axis; on the log axis a severity name, whatever its case, other than
    TRACE. *)
Definition levelOf (isTraceAxis : bool) (level : string) : option Z :=
  if isTraceAxis then strconv.Atoi level
  else if (strings.ToUpper level =? "TRACE")%string then None
  else levelNumbers (strings.ToUpper level).

(** The tokens that the specification calls invalid. *)
Definition invalidToken (isTraceAxis : bool) (tok : string) : bool :=
  (1 <? countByte "=" tok)%nat
  || match levelOf isTraceAxis (tokenLevel tok) with
     | Some _ => false
     | None => true
     end.

(** The rule that a token declares, none for an invalid token. *)
Definition tokenRule (isTraceAxis : bool) (tok : string) : option filter :=
  if (1 <? countByte "=" tok)%nat then None
  else match levelOf isTraceAxis (tokenLevel tok) with
       | Some l => Some (mkFilter (tokenPattern tok) l)
       | None => None
       end.

(** The rules that a specification string declares, in order. *)
Definition declaredRules (isTraceAxis : bool) (s : string) : list filter :=
  present (map (tokenRule isTraceAxis) (strings.Split s ",")).

Definition patternedRules (isTraceAxis : bool) (s : string) : list filter :=
  List.filter (fun r => negb (isEmpty (Pattern r)))
              (declaredRules isTraceAxis s).

(** The threshold of the last pattern-less rule declared, [default] when
    there is none. *)
Definition globalThreshold (isTraceAxis : bool) (s : string) (default : Z) : Z :=
  last (map Level (List.filter (fun r => isEmpty (Pattern r))
                               (declaredRules isTraceAxis s)))
       default.

End Vocabulary.

(** The settings of a configuration, with their names in a config file. *)
Inductive setting : Type :=
| LogLevelSetting
| TraceLevelSetting
| TimeFormatSetting
| LogFileSetting
| ConfFileSetting
| LogStreamSetting
| NoTimeSetting
| CallerInfoSetting.

Definition settingName (f : setting) : string :=
  match f with
  | LogLevelSetting => "RLOG_LOG_LEVEL"
  | TraceLevelSetting => "RLOG_TRACE_LEVEL"
  | TimeFormatSetting => "RLOG_TIME_FORMAT"
  | LogFileSetting => "RLOG_LOG_FILE"
  | ConfFileSetting => "RLOG_CONF_FILE"
  | LogStreamSetting => "RLOG_LOG_STREAM"
  | NoTimeSetting => "RLOG_LOG_NOTIME"
  | CallerInfoSetting => "RLOG_CALLER_INFO"
  end.

Definition settingValue (f : setting) (c : rlogEnvConfig) : string :=
  match f with
  | LogLevelSetting => logLevel c
  | TraceLevelSetting => traceLevel c
  | TimeFormatSetting => logTimeFormat c
  | LogFileSetting => logFile c
  | ConfFileSetting => confFile c
  | LogStreamSetting => logStream c
  | NoTimeSetting => logNoTime c
  | CallerInfoSetting => showCallerInfo c
  end.

(** The name of a config-file line, with its priority mark. *)
Definition markedName (priority : bool) (f : setting) : string :=
  if priority then "!" ++ settingName f else settingName f.

(** The value of setting [f] after the line [f=val] (marked or not) was
    merged into [config]; [None] stands for a panic. *)
Definition mergedValue `{Unicode} (f : setting) (config : rlogEnvConfig)
           (val : string) (priority : bool) : option string :=
  match applySetting config [] 1 (markedName priority f) val with
  | Returned (c, _) => Some (settingValue f c)
  | Panicked => None
  end.

(** The value that a config-file line gives a setting: the text after the
    '=', in upper case for the log stream. *)
Definition fileValue `{Unicode} (f : setting) (val : string) : string :=
  match f with
  | LogStreamSetting => strings.ToUpper val
  | _ => val
  end.

(** The configuration after a config file with the given lines was merged
    into [config]; [None] stands for a panic. *)
Definition mergedFromFile `{Unicode} (lines : list string)
           (config : rlogEnvConfig) : option rlogEnvConfig :=
  match updateConfigFromFile (Some lines) config with
  | Returned (c, _) => Some c
  | Panicked => None
  end.

(** The bytes 'a' to 'z'. *)
Definition isLowerByte (c : ascii) : bool := (97 <=? byte c) && (byte c <=? 122).

Fixpoint hasLower (s : string) : bool :=
  match s with
  | EmptyString => false
  | String c t => isLowerByte c || hasLower t
  end.

(** Two strings that differ in case only. *)
Definition sameIgnoringCase `{Unicode} (a b : string) : Prop :=
  strings.ToUpper a = strings.ToUpper b.

(** A pattern with a malformed chunk: one for which [matchChunk] returns
    [ErrBadPattern]. *)
Inductive malformed : string -> Prop :=
| malformed_chunk (pattern : string) (star : bool) (chunk rest : string) :
    pattern <> EmptyString ->
    filepath.scanChunk pattern = (star, chunk, rest) ->
    filepath.matchChunk chunk EmptyString = Some filepath.ChunkErr ->
    malformed pattern
| malformed_rest (pattern : string) (star : bool) (chunk rest : string) :
    pattern <> EmptyString ->
    filepath.scanChunk pattern = (star, chunk, rest) ->
    malformed rest ->
    malformed pattern.


(** Tables that know no character outside ASCII, to evaluate the functions
    on concrete inputs. *)
Definition asciiOnly : Unicode :=
  {| mapToUpper := strings.upperASCII;
     trimFuncIsSpace := fun s => s;
     trimRightFuncIsSpace := fun s => s |}.

(** ** Package [rlog]: further code

    The level names, the emission functions and the initialization. *)

(** The map [levelStrings]; [None] is a missing key. *)
Definition levelStrings (level : Z) : option string :=
  if level =? levelTrace then Some "TRACE"
  else if level =? levelDebug then Some "DEBUG"
  else if level =? levelInfo then Some "INFO"
  else if level =? levelWarn then Some "WARN"
  else if level =? levelErr then Some "ERROR"
  else if level =? levelCrit then Some "CRITICAL"
  else if level =? levelNone then Some "NONE"
  else None.

(** Whether [Debug] and [Debugf] write their message: they call
    [basicLog(levelDebug, notATrace, ...)]; the like for the other levels. *)
Definition Debug_allowLog (logSpec traceSpec : filterSpec)
           (caller : option string) : bool :=
  basicLog_allowLog logSpec traceSpec caller levelDebug notATrace.

(** [Info], [Infof], [Println] and [Printf]. *)
Definition Info_allowLog (logSpec traceSpec : filterSpec)
           (caller : option string) : bool :=
  basicLog_allowLog logSpec traceSpec caller levelInfo notATrace.

(** [Warn] and [Warnf]. *)
Definition Warn_allowLog (logSpec traceSpec : filterSpec)
           (caller : option string) : bool :=
  basicLog_allowLog logSpec traceSpec caller levelWarn notATrace.

(** [Error] and [Errorf]. *)
Definition Error_allowLog (logSpec traceSpec : filterSpec)
           (caller : option string) : bool :=
  basicLog_allowLog logSpec traceSpec caller levelErr notATrace.

(** [Critical] and [Criticalf]. *)
Definition Critical_allowLog (logSpec traceSpec : filterSpec)
           (caller : option string) : bool :=
  basicLog_allowLog logSpec traceSpec caller levelCrit notATrace.

(** The layouts of package [time] that [initialize] knows by name. *)
Module time.

Definition ANSIC : string := "Mon Jan _2 15:04:05 2006".
Definition UnixDate : string := "Mon Jan _2 15:04:05 MST 2006".
Definition RubyDate : string := "Mon Jan 02 15:04:05 -0700 2006".
Definition RFC822 : string := "02 Jan 06 15:04 MST".
Definition RFC822Z : string := "02 Jan 06 15:04 -0700".
Definition RFC1123 : string := "Mon, 02 Jan 2006 15:04:05 MST".
Definition RFC1123Z : string := "Mon, 02 Jan 2006 15:04:05 -0700".
Definition RFC3339 : string := "2006-01-02T15:04:05Z07:00".
Definition RFC3339Nano : string := "2006-01-02T15:04:05.999999999Z07:00".
Definition Kitchen : string := "3:04PM".

End time.

(** The standard streams that [initialize] logs to. *)
Inductive stdStream : Type :=
| OsStdout
| OsStderr.

(** The variables of the package that [initialize] sets.  A writer is [None]
    when the variable is nil; the file writer is known by the path of the
    file it appends to. *)
Record settings : Type := mkSettings {
  settingShowCallerInfo : bool;
  settingDateTimeFormat : string;
  settingConfFile : string;
  logWriterStream : option stdStream;
  logWriterFile : option string;
  logFilterSpec : filterSpec;
  traceFilterSpec : filterSpec
}.

(** The variables before [init] ran: the zero values. *)
Definition zeroSettings : settings :=
  mkSettings false EmptyString EmptyString None None
             (mkFilterSpec []) (mkFilterSpec []).

(** What [initialize] asks of the operating system: [os.Args[0]]; for a path,
    the lines that the scanner of [updateConfigFromFile] returns for the file
    that [os.Open] opens ([None] when it fails; the scanner ends at a line
    that does not fit its buffer of 64 KiB, and its error is not looked at);
    and whether [os.OpenFile] can open a path for appending. *)
Record system : Type := mkSystem {
  executable : string;
  readLines : string -> option (list string);
  canAppend : string -> bool
}.

Section Initialization.
Context `{Unicode}.

(** The [switch] of [initialize] over the name of the time format. *)
Definition timeLayout (logTimeFormat : string) : string :=
  let name := strings.ToUpper logTimeFormat in
  if (name =? "ANSIC")%string then time.ANSIC
  else if (name =? "UNIXDATE")%string then time.UnixDate
  else if (name =? "RUBYDATE")%string then time.RubyDate
  else if (name =? "RFC822")%string then time.RFC822
  else if (name =? "RFC822Z")%string then time.RFC822Z
  else if (name =? "RFC1123")%string then time.RFC1123
  else if (name =? "RFC1123Z")%string then time.RFC1123Z
  else if (name =? "RFC3339")%string then time.RFC3339
  else if (name =? "RFC3339NANO")%string then time.RFC3339Nano
  else if (name =? "KITCHEN")%string then time.Kitchen
  else if negb (isEmpty logTimeFormat) then logTimeFormat
  else time.RFC3339.

(** [initialize]: the variables it leaves, from those it found ([old]), and
    what it wrote to [os.Stderr]; it panics when [updateConfigFromFile]
    does. *)
Definition initialize (sys : system) (old : settings) (config : rlogEnvConfig)
  : outcome (settings * list diagnostic) :=
  let settingConfFile := confFile config in
  let execName := filepath.Base (executable sys) in
  let settingConfFile :=
    if isEmpty settingConfFile then "/etc/rlog/" ++ execName ++ ".conf"
    else settingConfFile in
  match updateConfigFromFile (readLines sys settingConfFile) config with
  | Panicked => Panicked
  | Returned (config, stderr) =>
      let logNoTime := isTrueBoolString (logNoTime config) in
      let settingShowCallerInfo := isTrueBoolString (showCallerInfo config) in
      let traceFilterSpec :=
        fromString (mkFilterSpec []) (traceLevel config) true noTraceOutput in
      let logFilterSpec :=
        fromString (mkFilterSpec []) (logLevel config) false levelInfo in
      let settingDateTimeFormat :=
        if negb logNoTime then timeLayout (logTimeFormat config) ++ " "
        else EmptyString in
      let logWriterStream :=
        if (logStream config =? "STDOUT")%string then Some OsStdout
        else if (logStream config =? "NONE")%string then None
        else Some OsStderr in
      let logWriterFile :=
        if isEmpty (logFile config) then None
        else if canAppend sys (logFile config) then Some (logFile config)
        else logWriterFile old in
      Returned (mkSettings settingShowCallerInfo settingDateTimeFormat
                           settingConfFile logWriterStream logWriterFile
                           logFilterSpec traceFilterSpec,
                stderr)
  end.

(** [init]: the configuration read from the environment ([getenv] is
    [os.Getenv]) is handed to [initialize]. *)
Definition init (sys : system) (getenv : string -> string)
  : outcome (settings * list diagnostic) :=
  let config :=
    mkConfig (getenv "RLOG_LOG_LEVEL")
             (getenv "RLOG_TRACE_LEVEL")
             (getenv "RLOG_TIME_FORMAT")
             (getenv "RLOG_LOG_FILE")
             (getenv "RLOG_CONF_FILE")
             (strings.ToUpper (getenv "RLOG_LOG_STREAM"))
             (getenv "RLOG_LOG_NOTIME")
             (getenv "RLOG_CALLER_INFO") in
  initialize sys zeroSettings config.

(** The path of the config file that [initialize] reads. *)
Definition configFilePath (sys : system) (config : rlogEnvConfig) : string :=
  if isEmpty (confFile config)
  then "/etc/rlog/" ++ filepath.Base (executable sys) ++ ".conf"
  else confFile config.

(** The configuration that [initialize] compiles: the environment merged with
    the config file; [None] stands for a panic. *)
Definition mergedConfig (sys : system) (config : rlogEnvConfig)
  : option rlogEnvConfig :=
  match updateConfigFromFile (readLines sys (configFilePath sys config))
                             config with
  | Returned (c, _) => Some c
  | Panicked => None
  end.

(** The name of a config-file line: the text before its first '=', without
    the white space around it. *)
Definition lineName (text : string) : string :=
  strings.TrimSpace (beforeFirst "=" (strings.TrimSpace text)).

(** A config-file line with a '=' and no name before it. *)
Definition namelessLine (text : string) : Prop :=
  hasByte "=" (strings.TrimSpace text) = true /\ lineName text = EmptyString.

(** A config-file line that sets [f] with the priority mark. *)
Definition marksSetting (f : setting) (text : string) : Prop :=
  hasByte "=" (strings.TrimSpace text) = true /\
  lineName text = "!" ++ settingName f.

End Initialization.


(** A system without config file and log file, to evaluate [initialize]. *)
Definition bareSystem : system :=
  mkSystem "/usr/bin/app" (fun _ => None) (fun _ => false).

(** An environment in which no variable is set. *)
Definition emptyEnvironment (name : string) : string := EmptyString.

(** * Properties *)

(** ** Slices *)

Lemma length_skip (n : nat) (s : string) :
  String.length (skip n s) = (String.length s - n)%nat.
Proof.
  revert s; induction n as [|n IH]; intros [|c t]; simpl; auto.
Qed.

Lemma isEmpty_true (s : string) : isEmpty s = true <-> s = EmptyString.
Proof. destruct s; simpl; split; congruence. Qed.

Lemma isEmpty_false (s : string) : isEmpty s = false <-> s <> EmptyString.
Proof. destruct s; simpl; split; congruence. Qed.

Lemma isEmpty_length (s : string) :
  isEmpty s = false -> (0 < String.length s)%nat.
Proof. destruct s; simpl; [congruence | lia]. Qed.

Module filepath_facts.
Import filepath.

Lemma decode_width (s : string) :
  s <> EmptyString ->
  (1 <= snd (utf8.DecodeRuneInString s))%nat.
Proof.
  intros Hs. destruct s as [|c0 t0]; [congruence|].
  unfold utf8.DecodeRuneInString.
  repeat match goal with
         | |- context [match ?x with _ => _ end] => destruct x
         end; simpl; lia.
Qed.

Lemma getEsc_shorter (chunk : string) (r : Z) (c' : string) :
  getEsc chunk = Some (r, c') ->
  (String.length c' < String.length chunk)%nat.
Proof.
  unfold getEsc. destruct chunk as [|c t]; [discriminate|].
  destruct (Ascii.eqb c "-" || Ascii.eqb c "]"); [discriminate|].
  set (chunk1 := if Ascii.eqb c "\" then t else String c t).
  destruct (isEmpty chunk1) eqn:E1; [discriminate|].
  assert (L1 : (String.length chunk1 <= String.length (String c t))%nat)
    by (unfold chunk1; destruct (Ascii.eqb c "\"); simpl; lia).
  pose proof (decode_width chunk1 (proj1 (isEmpty_false _) E1)) as W.
  destruct (utf8.DecodeRuneInString chunk1) as [r0 n]. simpl in W.
  destruct ((r0 =? utf8.RuneError) && (n =? 1)%nat); [discriminate|].
  destruct (isEmpty (skip n chunk1)); [discriminate|].
  intros Heq; inversion Heq; subst.
  rewrite length_skip. apply isEmpty_length in E1. lia.
Qed.

Lemma parseRanges_total (fuel : nat) :
  forall chunk r nrange m,
    (String.length chunk < fuel)%nat ->
    exists res, parseRanges fuel chunk r nrange m = Some res /\
      forall c' m', res = ClassEnd c' m' ->
                    (String.length c' < String.length chunk)%nat.
Proof.
  induction fuel as [|fuel IH]; intros chunk r nrange m Hlen; [lia|].
  cbn [parseRanges].
  set (closing := match chunk with
                  | String "]" t => if (0 <? nrange)%nat then Some t else None
                  | _ => None
                  end).
  assert (Hc : forall t, closing = Some t ->
                         (String.length t < String.length chunk)%nat).
  { subst closing. intros t. destruct chunk as [|c ct]; [discriminate|].
    destruct c as [[] [] [] [] [] [] [] []]; try discriminate.
    destruct (0 <? nrange)%nat; [|discriminate].
    intros Heq; inversion Heq; subst; simpl; lia. }
  destruct closing as [t|].
  - eexists; split; [reflexivity|].
    intros c' m' Heq; inversion Heq; subst. now apply Hc.
  - destruct (getEsc chunk) as [[lo chunk1]|] eqn:E1.
    2:{ eexists; split; [reflexivity | discriminate]. }
    apply getEsc_shorter in E1.
    assert (Hplain : exists res,
               parseRanges fuel chunk1 r (S nrange)
                           (m || ((lo <=? r) && (r <=? lo))) = Some res /\
               forall c' m', res = ClassEnd c' m' ->
                             (String.length c' < String.length chunk)%nat).
    { destruct (IH chunk1 r (S nrange) (m || ((lo <=? r) && (r <=? lo))))
        as [res [Hr Hs]]; [lia|].
      exists res; split; [exact Hr|].
      intros c' m' Heq. specialize (Hs c' m' Heq). lia. }
    destruct chunk1 as [|c1 t1]; [exact Hplain|].
    destruct (Ascii.eqb_spec c1 "-") as [->|Hne].
    + destruct (getEsc t1) as [[hi chunk2]|] eqn:E2.
      2:{ eexists; split; [reflexivity | discriminate]. }
      apply getEsc_shorter in E2. simpl in E1.
      destruct (IH chunk2 r (S nrange) (m || ((lo <=? r) && (r <=? hi))))
        as [res [Hr Hs]]; [lia|].
      exists res; split; [exact Hr|].
      intros c' m' Heq. specialize (Hs c' m' Heq). lia.
    + destruct c1 as [[] [] [] [] [] [] [] []]; try exact Hplain.
      now contradiction Hne.
Qed.

Lemma matchChunkLoop_total (fuel : nat) :
  forall chunk s failed,
    (String.length chunk < fuel)%nat ->
    exists res, matchChunkLoop fuel chunk s failed = Some res.
Proof.
  induction fuel as [|fuel IH]; intros chunk s failed Hlen; [lia|].
  cbn [matchChunkLoop].
  destruct chunk as [|c ct]; [eexists; reflexivity|].
  simpl in Hlen.
  destruct (Ascii.eqb c "[").
  - set (rs := if failed || isEmpty s then (0, s)
               else let (r, n) := utf8.DecodeRuneInString s in (r, skip n s)).
    destruct rs as [r s1].
    set (nc := match ct with
               | String "^" t => (true, t)
               | _ => (false, ct)
               end).
    assert (Hnc : (String.length (snd nc) <= String.length ct)%nat).
    { subst nc. destruct ct as [|c1 t1]; simpl; [lia|].
      destruct c1 as [[] [] [] [] [] [] [] []]; simpl; lia. }
    destruct nc as [negated chunk1]. simpl in Hnc.
    destruct (parseRanges_total (S (String.length chunk1)) chunk1 r 0 false)
      as [res [Hr Hs]]; [lia|].
    rewrite Hr. destruct res as [|chunk2 m]; [eexists; reflexivity|].
    specialize (Hs chunk2 m eq_refl). apply IH. lia.
  - destruct (Ascii.eqb c "?").
    + destruct (failed || isEmpty s); [apply IH; lia|].
      destruct (utf8.DecodeRuneInString s). apply IH; lia.
    + destruct (Ascii.eqb c "\").
      * destruct ct as [|c2 t2]; [eexists; reflexivity|]. simpl in Hlen.
        destruct (failed || isEmpty s); [apply IH; lia|].
        destruct s; apply IH; lia.
      * destruct (failed || isEmpty s); [apply IH; lia|].
        destruct s; apply IH; lia.
Qed.

Lemma matchChunk_total (chunk s : string) :
  exists res, matchChunk chunk s = Some res.
Proof. apply matchChunkLoop_total. lia. Qed.


Lemma starSkip_total (chunk : string) (lastChunk : bool) (name : string) :
  exists res, starSkip chunk lastChunk name = Some res.
Proof.
  induction name as [|c t IH]; simpl; [eexists; reflexivity|].
  destruct (Ascii.eqb c "/"); [eexists; reflexivity|].
  destruct (matchChunk_total chunk t) as [res Hres]. rewrite Hres.
  destruct res as [t'| |]; try exact IH; [|eexists; reflexivity].
  destruct (lastChunk && negb (isEmpty t')); [exact IH | eexists; reflexivity].
Qed.

Lemma dropStars_length (p : string) :
  (String.length (snd (dropStars p)) <= String.length p)%nat.
Proof.
  induction p as [|c t IH]; simpl; [lia|].
  destruct c as [[] [] [] [] [] [] [] []]; simpl; lia.
Qed.

(** After the stars are dropped the pattern is empty or starts with a byte
    that is no star; if a star was dropped it is shorter. *)
Lemma dropStars_head (p : string) :
  match snd (dropStars p) with
  | EmptyString => True
  | String c _ => Ascii.eqb c "*" = false
  end /\
  (fst (dropStars p) = true ->
   (String.length (snd (dropStars p)) < String.length p)%nat) /\
  (fst (dropStars p) = false -> snd (dropStars p) = p).
Proof.
  induction p as [|c t [IH1 [IH2 IH3]]].
  { simpl. split; [exact I|]. split; [discriminate | reflexivity]. }
  destruct (Ascii.eqb_spec c "*") as [->|Hne].
  - simpl. split; [exact IH1|]. split; [|discriminate].
    intros _. pose proof (dropStars_length t). lia.
  - assert (E : dropStars (String c t) = (false, String c t)).
    { destruct c as [[] [] [] [] [] [] [] []]; try reflexivity.
      now contradiction Hne. }
    rewrite E. simpl. split; [|split; [discriminate | reflexivity]].
    destruct (Ascii.eqb_spec c "*"); congruence.
Qed.

Lemma scanLoop_length (p : string) :
  forall inrange,
    (String.length (fst (scanLoop inrange p))
     + String.length (snd (scanLoop inrange p)) = String.length p)%nat.
Proof.
  induction p as [p IH] using (well_founded_induction
                                 (Wf_nat.well_founded_ltof _ String.length)).
  intros inrange. destruct p as [|c t]; [reflexivity|].
  assert (IHt : forall b, (String.length (fst (scanLoop b t))
                 + String.length (snd (scanLoop b t)) = String.length t)%nat)
    by (intros b; apply IH; unfold Wf_nat.ltof; simpl; lia).
  cbn [scanLoop].
  destruct (Ascii.eqb c "\").
  - destruct t as [|c2 t2]; [reflexivity|].
    assert (IH2 := IH t2 ltac:(unfold Wf_nat.ltof; simpl; lia) inrange).
    destruct (scanLoop inrange t2); simpl in *; lia.
  - destruct (Ascii.eqb c "[");
      [specialize (IHt true); destruct (scanLoop true t); simpl in *; lia|].
    destruct (Ascii.eqb c "]");
      [specialize (IHt false); destruct (scanLoop false t); simpl in *; lia|].
    specialize (IHt inrange).
    destruct (Ascii.eqb c "*"); [destruct inrange|];
      try (destruct (scanLoop _ t); simpl in *; lia);
      try (simpl; lia).
Qed.

Lemma scanLoop_progress (c : ascii) (t : string) :
  Ascii.eqb c "*" = false ->
  (String.length (snd (scanLoop false (String c t))) < String.length (String c t))%nat.
Proof.
  intros Hc.
  pose proof (scanLoop_length (String c t) false) as L.
  assert (P : (0 < String.length (fst (scanLoop false (String c t))))%nat).
  { cbn [scanLoop]. rewrite Hc.
    destruct (Ascii.eqb c "\");
      [destruct t; [simpl; lia | destruct (scanLoop false t); simpl; lia]|].
    destruct (Ascii.eqb c "["); [destruct (scanLoop true t); simpl; lia|].
    destruct (Ascii.eqb c "]"); destruct (scanLoop false t); simpl; lia. }
  lia.
Qed.

Lemma scanChunk_shorter (pattern : string) (star : bool) (chunk rest : string) :
  pattern <> EmptyString ->
  scanChunk pattern = (star, chunk, rest) ->
  (String.length rest < String.length pattern)%nat.
Proof.
  intros Hne. unfold scanChunk.
  destruct (dropStars_head pattern) as [Hh [Hs Hn]].
  pose proof (dropStars_length pattern) as Hl.
  destruct (dropStars pattern) as [st p]. simpl in *.
  pose proof (scanLoop_length p false) as L.
  destruct p as [|c t].
  - simpl. intros Heq; inversion Heq; subst. simpl.
    destruct pattern; [congruence | simpl; lia].
  - pose proof (scanLoop_progress c t Hh) as P.
    destruct (scanLoop false (String c t)) as [a b]. simpl in *.
    intros Heq; inversion Heq; subst. lia.
Qed.

Lemma matchLoop_total (fuel : nat) :
  forall pattern name,
    (String.length pattern < fuel)%nat ->
    exists r, matchLoop fuel pattern name = Some r.
Proof.
  induction fuel as [|fuel IH]; intros pattern name Hlen; [lia|].
  cbn [matchLoop].
  destruct (isEmpty pattern) eqn:E; [eexists; reflexivity|].
  apply isEmpty_false in E.
  destruct (scanChunk pattern) as [[star chunk] rest] eqn:Es.
  apply scanChunk_shorter in Es; [|exact E].
  destruct (star && isEmpty chunk); [eexists; reflexivity|].
  assert (Hafter : exists r,
             (if star
              then match starSkip chunk (isEmpty rest) name with
                   | None => None
                   | Some (SkipFound t) => matchLoop fuel rest t
                   | Some SkipErr => Some (false, true)
                   | Some SkipNone => Some (false, false)
                   end
              else Some (false, false)) = Some r).
  { destruct star; [|eexists; reflexivity].
    destruct (starSkip_total chunk (isEmpty rest) name) as [sk Hsk].
    rewrite Hsk. destruct sk; try (eexists; reflexivity). apply IH; lia. }
  destruct (matchChunk_total chunk name) as [res Hres]. rewrite Hres.
  destruct res as [t| |]; [| exact Hafter | eexists; reflexivity].
  destruct (isEmpty t || negb (isEmpty rest)); [apply IH; lia | exact Hafter].
Qed.

(** [Match] returns: the fuel it gives its loop is never exhausted. *)
Lemma Match_returns (pattern name : string) :
  matchLoop (S (String.length pattern)) pattern name
  = Some (Match pattern name).
Proof.
  unfold Match.
  destruct (matchLoop_total (S (String.length pattern)) pattern name) as [r Hr];
    [lia|].
  now rewrite Hr.
Qed.

Lemma matchLoop_error (fuel : nat) :
  forall pattern name m,
    matchLoop fuel pattern name = Some (m, true) -> m = false.
Proof.
  induction fuel as [|fuel IH]; intros pattern name m; [discriminate|].
  cbn [matchLoop].
  destruct (isEmpty pattern); [congruence|].
  destruct (scanChunk pattern) as [[star chunk] rest].
  destruct (star && isEmpty chunk); [congruence|].
  assert (Hafter :
            (if star
             then match starSkip chunk (isEmpty rest) name with
                  | None => None
                  | Some (SkipFound t) => matchLoop fuel rest t
                  | Some SkipErr => Some (false, true)
                  | Some SkipNone => Some (false, false)
                  end
             else Some (false, false)) = Some (m, true) -> m = false).
  { destruct star; [|congruence].
    destruct (starSkip chunk (isEmpty rest) name) as [[t| |]|];
      try congruence. apply IH. }
  destruct (matchChunk chunk name) as [[t| |]|]; try congruence;
    [|exact Hafter].
  destruct (isEmpty t || negb (isEmpty rest)); [apply IH | exact Hafter].
Qed.

(** Whenever [filepath.Match] returns a non-nil error its [matched] is
    false. *)
Lemma Match_error (pattern name : string) :
  snd (Match pattern name) = true -> fst (Match pattern name) = false.
Proof.
  intros He. pose proof (Match_returns pattern name) as Hr.
  destruct (Match pattern name) as [m e]. cbn [fst snd] in *. subst e.
  exact (matchLoop_error _ _ _ _ Hr).
Qed.

(** The loop over the ranges of a class reads the rune only to set its
    [matched]: where it ends does not depend on the rune. *)
Lemma parseRanges_shape (fuel : nat) :
  forall chunk r r' nrange m m',
    match parseRanges fuel chunk r nrange m,
          parseRanges fuel chunk r' nrange m' with
    | Some ClassErr, Some ClassErr => True
    | Some (ClassEnd c _), Some (ClassEnd c' _) => c = c'
    | None, None => True
    | _, _ => False
    end.
Proof.
  induction fuel as [|fuel IH]; intros chunk r r' nrange m m';
    cbn [parseRanges]; [exact I|].
  destruct (match chunk with
            | String "]" t => if (0 <? nrange)%nat then Some t else None
            | _ => None
            end) as [t|]; [reflexivity|].
  destruct (getEsc chunk) as [[lo chunk1]|]; [|exact I].
  destruct chunk1 as [|c1 t1]; [apply IH|].
  destruct (Ascii.eqb_spec c1 "-") as [->|Hne].
  - destruct (getEsc t1) as [[hi chunk2]|]; [apply IH | exact I].
  - destruct c1 as [[] [] [] [] [] [] [] []]; try apply IH.
    now contradiction Hne.
Qed.

(** Whether [matchChunk] returns [ErrBadPattern] depends on the chunk alone,
    not on the name. *)
Lemma matchChunkLoop_error_any (fuel : nat) :
  forall chunk s failed,
    matchChunkLoop fuel chunk s failed = Some ChunkErr <->
    matchChunkLoop fuel chunk EmptyString true = Some ChunkErr.
Proof.
  induction fuel as [|fuel IH]; intros chunk s failed;
    cbn [matchChunkLoop]; [tauto|].
  destruct chunk as [|c ct].
  - destruct failed; split; discriminate.
  - cbn [orb isEmpty].
    destruct (Ascii.eqb c "[").
    + destruct (if failed || isEmpty s
                then (0, s)
                else let (r, n) := utf8.DecodeRuneInString s in (r, skip n s))
        as [r s1].
      destruct (match ct with
                | String "^" t => (true, t)
                | _ => (false, ct)
                end) as [negated chunk1].
      pose proof (parseRanges_shape (S (String.length chunk1)) chunk1 r 0 0
                                    false false) as Hs.
      destruct (parseRanges (S (String.length chunk1)) chunk1 r 0 false)
        as [[|c2 m2]|];
        destruct (parseRanges (S (String.length chunk1)) chunk1 0 0 false)
        as [[|c2' m2']|]; try contradiction; try tauto.
      subst c2'. cbn [orb]. apply IH.
    + destruct (Ascii.eqb c "?").
      * destruct (failed || isEmpty s); [apply IH|].
        destruct (utf8.DecodeRuneInString s). apply IH.
      * destruct (if Ascii.eqb c "\"
                  then match ct with
                       | EmptyString => None
                       | String c2 t2 => Some (c2, t2)
                       end
                  else Some (c, ct)) as [[c0 rest]|]; [|tauto].
        destruct (failed || isEmpty s); [apply IH|].
        destruct s; apply IH.
Qed.

Lemma matchChunk_error_any (chunk s s' : string) :
  matchChunk chunk s = Some ChunkErr -> matchChunk chunk s' = Some ChunkErr.
Proof.
  unfold matchChunk. intros He.
  apply (matchChunkLoop_error_any _ chunk s' false).
  now apply (matchChunkLoop_error_any _ chunk s false).
Qed.

Lemma scanChunk_empty_chunk (pattern : string) (star : bool) (rest : string) :
  scanChunk pattern = (star, EmptyString, rest) -> rest = EmptyString.
Proof.
  unfold scanChunk.
  destruct (dropStars_head pattern) as [Hh _].
  destruct (dropStars pattern) as [st p]. cbn [snd] in Hh.
  destruct p as [|c t].
  - simpl. intros Heq; inversion Heq; reflexivity.
  - pose proof (scanLoop_progress c t Hh) as P.
    pose proof (scanLoop_length (String c t) false) as L.
    destruct (scanLoop false (String c t)) as [a b]. cbn [fst snd] in *.
    intros Heq; inversion Heq; subst. simpl in L, P. exfalso. lia.
Qed.

Lemma starSkip_found (chunk : string) (lastChunk : bool) (name t : string) :
  starSkip chunk lastChunk name = Some (SkipFound t) ->
  exists s, matchChunk chunk s = Some (ChunkOk t).
Proof.
  induction name as [|c rest IH]; simpl; [discriminate|].
  destruct (Ascii.eqb c "/"); [discriminate|].
  destruct (matchChunk chunk rest) as [[t'| |]|] eqn:E; try discriminate;
    [|exact IH].
  destruct (lastChunk && negb (isEmpty t')); [exact IH|].
  intros Heq; inversion Heq; subst. now exists rest.
Qed.

Lemma starSkip_error (chunk : string) (lastChunk : bool) (name : string) :
  starSkip chunk lastChunk name = Some SkipErr ->
  exists s, matchChunk chunk s = Some ChunkErr.
Proof.
  induction name as [|c rest IH]; simpl; [discriminate|].
  destruct (Ascii.eqb c "/"); [discriminate|].
  destruct (matchChunk chunk rest) as [[t'| |]|] eqn:E; try discriminate;
    [|exact IH|intros _; now exists rest].
  destruct (lastChunk && negb (isEmpty t')); [exact IH | discriminate].
Qed.

(** [Match] returns an error only for a pattern with a malformed chunk. *)
Lemma matchLoop_error_malformed (fuel : nat) :
  forall pattern name m,
    matchLoop fuel pattern name = Some (m, true) -> malformed pattern.
Proof.
  induction fuel as [|fuel IH]; intros pattern name m; [discriminate|].
  cbn [matchLoop].
  destruct (isEmpty pattern) eqn:Ep; [discriminate|].
  apply isEmpty_false in Ep.
  destruct (scanChunk pattern) as [[star chunk] rest] eqn:Es.
  destruct (star && isEmpty chunk); [discriminate|].
  assert (Hafter :
            (if star
             then match starSkip chunk (isEmpty rest) name with
                  | None => None
                  | Some (SkipFound t) => matchLoop fuel rest t
                  | Some SkipErr => Some (false, true)
                  | Some SkipNone => Some (false, false)
                  end
             else Some (false, false)) = Some (m, true) ->
            malformed pattern).
  { destruct star; [|discriminate].
    destruct (starSkip chunk (isEmpty rest) name) as [[t| |]|] eqn:Ek;
      try discriminate.
    - intros Hm. apply (malformed_rest pattern true chunk rest Ep Es).
      exact (IH _ _ _ Hm).
    - intros _. destruct (starSkip_error _ _ _ Ek) as [s Hs].
      apply (malformed_chunk pattern true chunk rest Ep Es).
      exact (matchChunk_error_any _ _ _ Hs). }
  destruct (matchChunk chunk name) as [[t| |]|] eqn:Ec; try discriminate.
  - destruct (isEmpty t || negb (isEmpty rest)); [|exact Hafter].
    intros Hm. apply (malformed_rest pattern star chunk rest Ep Es).
    exact (IH _ _ _ Hm).
  - exact Hafter.
  - intros _. apply (malformed_chunk pattern star chunk rest Ep Es).
    exact (matchChunk_error_any _ _ _ Ec).
Qed.

(** [Match] matches no name against a pattern with a malformed chunk. *)
Lemma matchLoop_matched_wellformed (fuel : nat) :
  forall pattern name e,
    matchLoop fuel pattern name = Some (true, e) -> ~ malformed pattern.
Proof.
  induction fuel as [|fuel IH]; intros pattern name e; [discriminate|].
  cbn [matchLoop].
  destruct (isEmpty pattern) eqn:Ep.
  { intros _ Hmal. apply isEmpty_true in Ep. subst.
    inversion Hmal; congruence. }
  destruct (scanChunk pattern) as [[star chunk] rest] eqn:Es.
  intros Hm Hmal.
  assert (Hcases :
            matchChunk chunk EmptyString = Some ChunkErr \/ malformed rest).
  { inversion Hmal as [p st ch rs _ Hs He|p st ch rs _ Hs Hr]; subst;
      rewrite Es in Hs; inversion Hs; subst; tauto. }
  destruct (star && isEmpty chunk) eqn:Ese.
  { apply andb_true_iff in Ese as [_ Hc]. apply isEmpty_true in Hc. subst.
    destruct Hcases as [He|Hr]; [discriminate He|].
    apply scanChunk_empty_chunk in Es. subst. inversion Hr; congruence. }
  assert (Hrest : forall t, matchLoop fuel rest t = Some (true, e) -> False).
  { intros t Ht. destruct Hcases as [He|Hr].
    - clear Ht. revert Hm.
      rewrite (matchChunk_error_any _ _ name He). discriminate.
    - exact (IH _ _ _ Ht Hr). }
  assert (Hafter :
            (if star
             then match starSkip chunk (isEmpty rest) name with
                  | None => None
                  | Some (SkipFound t) => matchLoop fuel rest t
                  | Some SkipErr => Some (false, true)
                  | Some SkipNone => Some (false, false)
                  end
             else Some (false, false)) = Some (true, e) -> False).
  { destruct star; [|discriminate].
    destruct (starSkip chunk (isEmpty rest) name) as [[t| |]|];
      try discriminate. apply Hrest. }
  destruct (matchChunk chunk name) as [[t| |]|]; try discriminate.
  - destruct (isEmpty t || negb (isEmpty rest));
      [exact (Hrest t Hm) | exact (Hafter Hm)].
  - exact (Hafter Hm).
Qed.

(** A pattern that [filepath.Match] reports as malformed for one name matches
    no name at all. *)
Lemma Match_malformed (pattern reported name : string) :
  snd (Match pattern reported) = true -> fst (Match pattern name) = false.
Proof.
  intros He.
  pose proof (Match_returns pattern reported) as Hr.
  pose proof (Match_returns pattern name) as Hn.
  destruct (Match pattern reported) as [m0 e0]. cbn [snd] in He. subst e0.
  apply matchLoop_error_malformed in Hr.
  destruct (Match pattern name) as [m e]. cbn [fst].
  destruct m; [|reflexivity].
  now elim (matchLoop_matched_wellformed _ _ _ _ Hn).
Qed.

End filepath_facts.

(** ** Paths *)

Lemma append_empty_r (s : string) : s ++ EmptyString = s.
Proof. induction s as [|c t IH]; simpl; [reflexivity | now rewrite IH]. Qed.

Lemma isEmpty_append (a b : string) :
  isEmpty b = false -> isEmpty (a ++ b) = false.
Proof. destruct a; simpl; auto. Qed.

Lemma cutAfterLast_none (c : ascii) (s : string) :
  hasByte c s = false -> cutAfterLast c s = (EmptyString, s).
Proof.
  induction s as [|d t IH]; simpl; [reflexivity|].
  intros Hb. apply orb_false_iff in Hb as [Hd Ht].
  rewrite (IH Ht). simpl. now rewrite Hd.
Qed.

Lemma cutAfterLast_append (c : ascii) (a f : string) :
  hasByte c f = false ->
  cutAfterLast c (a ++ String c f) = (a ++ String c EmptyString, f).
Proof.
  intros Hf. induction a as [|d t IH]; simpl.
  - rewrite (cutAfterLast_none c f Hf). simpl. now rewrite Ascii.eqb_refl.
  - rewrite IH.
    now rewrite (isEmpty_append t (String c EmptyString) eq_refl).
Qed.

(** The file part that [path.Split] returns holds no slash. *)
Lemma cutAfterLast_snd (c : ascii) (s : string) :
  hasByte c (snd (cutAfterLast c s)) = false.
Proof.
  induction s as [|d t IH]; simpl; [reflexivity|].
  destruct (cutAfterLast c t) as [h r]. simpl in IH.
  destruct (isEmpty h); [|exact IH].
  destruct (Ascii.eqb d c) eqn:E; simpl; [exact IH|].
  now rewrite E, IH.
Qed.

Lemma dropLast_append (a : string) (c : ascii) :
  dropLast (a ++ String c EmptyString) = a.
Proof.
  induction a as [|d t IH]; [reflexivity|].
  simpl. rewrite IH.
  destruct (t ++ String c EmptyString) eqn:E; [|reflexivity].
  destruct t; discriminate.
Qed.

Lemma stripTrailingSlashes_plain (s : string) :
  hasByte "/" s = false -> filepath.stripTrailingSlashes s = s.
Proof.
  induction s as [|d t IH]; simpl; [reflexivity|].
  intros Hb. apply orb_false_iff in Hb as [Hd Ht].
  now rewrite (IH Ht), Hd.
Qed.

Lemma stripTrailingSlashes_append (a b : string) :
  b <> EmptyString ->
  filepath.stripTrailingSlashes b = b ->
  filepath.stripTrailingSlashes (a ++ b) = a ++ b.
Proof.
  intros Hne Hb. induction a as [|d t IH]; simpl; [exact Hb|].
  rewrite IH.
  rewrite (isEmpty_append t b (proj2 (isEmpty_false b) Hne)).
  now rewrite andb_false_r.
Qed.

(** [filepath.Base] of a name without a slash is the name. *)
Lemma Base_plain (name : string) :
  name <> EmptyString -> hasByte "/" name = false ->
  filepath.Base name = name.
Proof.
  intros Hne Hs. unfold filepath.Base.
  rewrite (proj2 (isEmpty_false name) Hne).
  rewrite (stripTrailingSlashes_plain name Hs).
  rewrite (cutAfterLast_none "/" name Hs). simpl.
  now rewrite (proj2 (isEmpty_false name) Hne).
Qed.

(** [filepath.Base] drops the directories before the last element. *)
Lemma Base_dir (dir name : string) :
  name <> EmptyString -> hasByte "/" name = false ->
  filepath.Base (dir ++ "/" ++ name) = name.
Proof.
  intros Hne Hs. unfold filepath.Base.
  assert (Hn : isEmpty name = false) by now apply isEmpty_false.
  rewrite (isEmpty_append dir ("/" ++ name) eq_refl).
  rewrite (stripTrailingSlashes_append dir ("/" ++ name)).
  - change ("/" ++ name) with (String "/" name).
    rewrite (cutAfterLast_append "/" dir name Hs). simpl. now rewrite Hn.
  - discriminate.
  - change ("/" ++ name) with (String "/" name).
    simpl. rewrite (stripTrailingSlashes_plain name Hs). now rewrite Hn.
Qed.



(** The same for a caller path [module/file] with a single directory. *)
Lemma moduleAndFileName_short (module file : string) :
  hasByte "/" module = false -> hasByte "/" file = false ->
  moduleAndFileName (Some (module ++ "/" ++ file)) = module ++ "/" ++ file.
Proof.
  intros Hm Hf. unfold moduleAndFileName, path.Split.
  change (module ++ "/" ++ file) with (module ++ String "/" file).
  rewrite (cutAfterLast_append "/" module file Hf).
  rewrite (isEmpty_append module (String "/" EmptyString) eq_refl).
  simpl negb. cbv iota.
  rewrite dropLast_append.
  now rewrite (cutAfterLast_none "/" module Hm).
Qed.

(** For every caller path the name handed to the filters ends with the file
    part of the path, after a slash, and its base name is that file part. *)
Lemma moduleAndFileName_file (p : string) :
  exists module,
    moduleAndFileName (Some p) = module ++ "/" ++ snd (path.Split p).
Proof.
  unfold moduleAndFileName. destruct (path.Split p) as [d f]. simpl.
  eexists; reflexivity.
Qed.

Lemma Base_moduleAndFileName (p : string) :
  snd (path.Split p) <> EmptyString ->
  filepath.Base (moduleAndFileName (Some p)) = snd (path.Split p).
Proof.
  intros Hne. destruct (moduleAndFileName_file p) as [m ->].
  apply Base_dir; [exact Hne|]. apply cutAfterLast_snd.
Qed.

(** ** Filters *)

Lemma filter_match_Base (f : filter) (n1 n2 : string) (level : Z) :
  filepath.Base n1 = filepath.Base n2 ->
  filter_match f n1 level = filter_match f n2 level.
Proof. intros E. unfold filter_match. now rewrite E. Qed.



Lemma filter_match_snd (f : filter) (fileName : string) (level : Z) :
  snd (filter_match f fileName level)
  = fst (filter_match f fileName level) && (level <=? Level f).
Proof.
  unfold filter_match.
  destruct (if negb (isEmpty (Pattern f)) then _ else true); reflexivity.
Qed.

(** A filter whose glob is reported as malformed matches nothing. *)
Lemma filter_match_error (f : filter) (fileName : string) (level : Z) :
  Pattern f <> EmptyString ->
  snd (filepath.Match (Pattern f) (filepath.Base fileName)) = true ->
  filter_match f fileName level = (false, false).
Proof.
  intros Hne He. unfold filter_match.
  rewrite (proj2 (isEmpty_false _) Hne). simpl negb. cbv iota.
  now rewrite (filepath_facts.Match_error _ _ He).
Qed.

(** The pattern "[" is malformed whatever the name. *)
Lemma Match_open_bracket (name : string) :
  filepath.Match "[" name = (false, true).
Proof.
  unfold filepath.Match. cbn [String.length filepath.matchLoop isEmpty].
  change (filepath.scanChunk "[") with (false, "[", EmptyString).
  cbv iota beta. cbn [andb].
  unfold filepath.matchChunk. cbn [String.length filepath.matchChunkLoop].
  change (Ascii.eqb "[" "[") with true. cbv iota.
  destruct (false || isEmpty name).
  - reflexivity.
  - destruct (utf8.DecodeRuneInString name). reflexivity.
Qed.

(** C1. For every filter: an empty pattern matches every file name; a
    non-empty pattern matches exactly when [filepath.Match] matches it against
    [filepath.Base] of the file name, so that for a file [dir/name] the
    directories do not count; when the pattern matched, the message is to
    be logged exactly when [level <= Level f], and when it did not, it is
    not logged. *)
Theorem filter_match_spec (f : filter) (fileName : string) (level : Z) :
  (Pattern f = EmptyString -> fst (filter_match f fileName level) = true) /\
  (Pattern f <> EmptyString ->
   fst (filter_match f fileName level)
   = fst (filepath.Match (Pattern f) (filepath.Base fileName))) /\
  (forall dir name : string,
      Pattern f <> EmptyString ->
      name <> EmptyString -> hasByte "/" name = false ->
      fst (filter_match f (dir ++ "/" ++ name) level)
      = fst (filepath.Match (Pattern f) name) /\
      filter_match f (dir ++ "/" ++ name) level = filter_match f name level) /\
  (fst (filter_match f fileName level) = true ->
   (snd (filter_match f fileName level) = true <-> level <= Level f)) /\
  (fst (filter_match f fileName level) = false ->
   snd (filter_match f fileName level) = false).
Proof.
  assert (Hnon : forall n, Pattern f <> EmptyString ->
            fst (filter_match f n level)
            = fst (filepath.Match (Pattern f) (filepath.Base n))).
  { intros n Hne. unfold filter_match.
    rewrite (proj2 (isEmpty_false _) Hne). simpl negb. cbv iota.
    now destruct (fst (filepath.Match (Pattern f) (filepath.Base n))). }
  split; [|split; [|split; [|split]]].
  - intros He. unfold filter_match. rewrite He. reflexivity.
  - apply Hnon.
  - intros dir name Hp Hn Hs. split.
    + rewrite (Hnon _ Hp). now rewrite (Base_dir dir name Hn Hs).
    + apply filter_match_Base.
      now rewrite (Base_dir dir name Hn Hs), (Base_plain name Hn Hs).
  - intros Hm. rewrite filter_match_snd, Hm. simpl. apply Z.leb_le.
  - intros Hm. now rewrite filter_match_snd, Hm.
Qed.

(** The filter "*.go" at INFO, asked about pkg/a.go at WARN. *)
Lemma filter_match_spec_witness :
  fst (filter_match (mkFilter "*.go" levelInfo) "pkg/a.go" levelWarn)
  = fst (filepath.Match "*.go" "a.go") /\
  (snd (filter_match (mkFilter "*.go" levelInfo) "pkg/a.go" levelWarn) = true
   <-> levelWarn <= levelInfo).
Proof.
  destruct (filter_match_spec (mkFilter "*.go" levelInfo) "pkg/a.go" levelWarn)
    as (_ & _ & Hdir & Hlog & _).
  split.
  - apply (Hdir "pkg" "a.go"); [discriminate | discriminate | reflexivity].
  - apply Hlog. reflexivity.
Defined.

Lemma matchfilters_range_find (fs : list filter) (fileName : string) (level : Z) :
  matchfilters_range fs fileName level
  = match firstMatching fs fileName level with
    | Some f => snd (filter_match f fileName level)
    | None => false
    end.
Proof.
  unfold firstMatching.
  induction fs as [|f rest IH]; simpl; [reflexivity|].
  destruct (filter_match f fileName level) as [m l] eqn:E. simpl.
  destruct m; [now rewrite E | exact IH].
Qed.

(** C2. [matchfilters] returns false for an empty rule sequence, and
    otherwise the [shouldLog] of the first rule, in sequence order, whose
    pattern matched, false when no pattern matched.  With the rules
    [("a.go", ERROR); ("", WARN)] the query ("a.go", WARN) is rejected,
    though the global rule alone accepts it. *)
Theorem matchfilters_first_match (spec : filterSpec) (fileName : string)
        (level : Z) :
  (filters spec = [] -> matchfilters spec fileName level = false) /\
  matchfilters spec fileName level
  = match firstMatching (filters spec) fileName level with
    | Some f => snd (filter_match f fileName level)
    | None => false
    end /\
  matchfilters (mkFilterSpec [mkFilter "a.go" levelErr; mkFilter "" levelWarn])
               "a.go" levelWarn = false /\
  matchfilters (mkFilterSpec [mkFilter "" levelWarn]) "a.go" levelWarn = true.
Proof.
  split; [|split; [|split; reflexivity]].
  - intros He. unfold matchfilters. now rewrite He.
  - unfold matchfilters. destruct (filters spec) as [|f rest] eqn:E.
    + reflexivity.
    + simpl Nat.eqb. cbv iota. apply matchfilters_range_find.
Qed.

(** An empty rule sequence, asked about a.go at WARN. *)
Lemma matchfilters_first_match_witness :
  matchfilters (mkFilterSpec []) "a.go" levelWarn = false.
Proof.
  apply (proj1 (matchfilters_first_match (mkFilterSpec []) "a.go" levelWarn)).
  reflexivity.
Defined.

(** A filter whose pattern [filepath.Match] reports as malformed for some
    name matches no file name. *)
Lemma filter_match_malformed (f : filter) (reported fileName : string)
      (level : Z) :
  Pattern f <> EmptyString ->
  snd (filepath.Match (Pattern f) reported) = true ->
  filter_match f fileName level = (false, false).
Proof.
  intros Hne He. unfold filter_match.
  rewrite (proj2 (isEmpty_false _) Hne). simpl negb. cbv iota.
  now rewrite (filepath_facts.Match_malformed _ reported _ He).
Qed.

(** C10. A filter whose non-empty pattern is a malformed glob, one that
    [filepath.Match] reports as a pattern error for some name, returns
    [(false, false)] for every file name and every level: the error is
    dropped, and [matchfilters] goes on with the rules after it, so the
    filter never accepts and never consumes a query.  The pattern "[" is
    reported as malformed for every name. *)
Theorem malformed_pattern_never_matches (f : filter) (rest : list filter)
        (reported fileName : string) (level : Z) :
  Pattern f <> EmptyString ->
  snd (filepath.Match (Pattern f) reported) = true ->
  filter_match f fileName level = (false, false) /\
  matchfilters (mkFilterSpec (f :: rest)) fileName level
  = matchfilters (mkFilterSpec rest) fileName level /\
  (forall (threshold : Z) (name : string) (l : Z),
      snd (filepath.Match "[" name) = true /\
      filter_match (mkFilter "[" threshold) name l = (false, false)).
Proof.
  intros Hne He.
  pose proof (filter_match_malformed f reported fileName level Hne He) as Hm.
  split; [exact Hm|]. split.
  - unfold matchfilters. cbn [filters List.length Nat.eqb matchfilters_range].
    rewrite Hm. now destruct rest.
  - intros threshold name l.
    assert (Hb : snd (filepath.Match "[" name) = true)
      by now rewrite Match_open_bracket.
    split; [exact Hb|].
    apply (filter_match_malformed (mkFilter "[" threshold) name);
      [discriminate | exact Hb].
Qed.

(** The pattern "b*[" is reported as malformed for the name bx and not for
    a.go; it matches neither. *)
Lemma malformed_pattern_never_matches_witness :
  filepath.Match "b*[" "bx" = (false, true) /\
  filepath.Match "b*[" "a.go" = (false, false) /\
  filter_match (mkFilter "b*[" levelDebug) "pkg/a.go" levelErr = (false, false) /\
  matchfilters (mkFilterSpec [mkFilter "b*[" levelDebug; mkFilter "" levelInfo])
               "pkg/a.go" levelErr
  = matchfilters (mkFilterSpec [mkFilter "" levelInfo]) "pkg/a.go" levelErr.
Proof.
  destruct (malformed_pattern_never_matches
              (mkFilter "b*[" levelDebug) [mkFilter "" levelInfo]
              "bx" "pkg/a.go" levelErr) as (H1 & H2 & _).
  - discriminate.
  - reflexivity.
  - split; [reflexivity|]. split; [reflexivity|].
    split; [exact H1 | exact H2].
Defined.




(** ** Filter specifications *)

Lemma countByte_hasByte (c : ascii) (s : string) :
  hasByte c s = false <-> countByte c s = O.
Proof.
  induction s as [|d t IH]; simpl; [tauto|].
  destruct (Ascii.eqb d c); simpl; [split; [discriminate | lia] | exact IH].
Qed.

Lemma countByte_afterFirst (c : ascii) (s : string) :
  hasByte c s = true -> countByte c s = S (countByte c (afterFirst c s)).
Proof.
  induction s as [|d t IH]; simpl; [discriminate|].
  destruct (Ascii.eqb d c); simpl; [reflexivity | exact IH].
Qed.

Lemma Split_none (c : ascii) (s : string) :
  hasByte c s = false -> strings.Split s c = [s].
Proof.
  induction s as [|d t IH]; simpl; [reflexivity|].
  intros Hb. apply orb_false_iff in Hb as [Hd Ht].
  now rewrite Hd, (IH Ht).
Qed.

Lemma Split_first (c : ascii) (s : string) :
  hasByte c s = true ->
  strings.Split s c = beforeFirst c s :: strings.Split (afterFirst c s) c.
Proof.
  induction s as [|d t IH]; simpl; [discriminate|].
  destruct (Ascii.eqb d c); simpl; [reflexivity|].
  intros Hb. now rewrite (IH Hb).
Qed.

Lemma Split_nonempty (c : ascii) (s : string) : strings.Split s c <> [].
Proof.
  destruct (hasByte c s) eqn:E;
    [rewrite (Split_first c s E) | rewrite (Split_none c s E)]; discriminate.
Qed.

(** The three shapes of the tokens of a field, as [fromString] tells them
    apart by [len(tokens)]. *)
Lemma Split_token (tok : string) :
  match countByte "=" tok with
  | O => strings.Split tok "=" = [tok]
  | S O => strings.Split tok "=" = [beforeFirst "=" tok; afterFirst "=" tok]
  | S (S _) => exists t0 t1 t2 ts, strings.Split tok "=" = t0 :: t1 :: t2 :: ts
  end.
Proof.
  destruct (hasByte "=" tok) eqn:E.
  - rewrite (countByte_afterFirst _ _ E), (Split_first _ _ E).
    destruct (hasByte "=" (afterFirst "=" tok)) eqn:E2.
    + rewrite (countByte_afterFirst _ _ E2), (Split_first _ _ E2).
      pose proof (Split_nonempty "=" (afterFirst "=" (afterFirst "=" tok))).
      destruct (strings.Split (afterFirst "=" (afterFirst "=" tok)) "=")
        as [|t2 ts]; [congruence|].
      now exists (beforeFirst "=" tok), (beforeFirst "=" (afterFirst "=" tok)),
        t2, ts.
    + rewrite (Split_none _ _ E2).
      now rewrite (proj1 (countByte_hasByte _ _) E2).
  - rewrite (proj1 (countByte_hasByte _ _) E). now apply Split_none.
Qed.

Lemma levelNumbers_trace (name : string) (l : Z) :
  levelNumbers name = Some l ->
  (l =? levelTrace) = (name =? "TRACE")%string.
Proof.
  unfold levelNumbers.
  repeat match goal with
         | |- context [if (name =? ?s)%string then _ else _] =>
             destruct (name =? s)%string
         end; intros Heq; inversion Heq; reflexivity.
Qed.

Lemma last_default {A : Type} (l : list A) (a d1 d2 : A) :
  last (a :: l) d1 = last (a :: l) d2.
Proof.
  revert a; induction l as [|b l IH]; intros a; [reflexivity|].
  change (last (b :: l) d1 = last (b :: l) d2). apply IH.
Qed.

Lemma last_cons {A : Type} (l : list A) (a d : A) :
  last (a :: l) d = last l a.
Proof.
  destruct l as [|b l]; [reflexivity|].
  change (last (b :: l) d = last (b :: l) a). apply last_default.
Qed.

Section FilterSpecFacts.
Context `{Unicode}.

(** The level that the loop of [fromString] reads is the level that the token
    names on the axis. *)
Lemma parsed_levelOf (isTraceLevels : bool) (levelToken : string) :
  (if isTraceLevels then strconv.Atoi levelToken
   else match levelNumbers (strings.ToUpper levelToken) with
        | Some filterLevel =>
            if filterLevel =? levelTrace then None else Some filterLevel
        | None => None
        end)
  = levelOf isTraceLevels levelToken.
Proof.
  unfold levelOf. destruct isTraceLevels; [reflexivity|].
  destruct (levelNumbers (strings.ToUpper levelToken)) as [l|] eqn:E.
  - rewrite (levelNumbers_trace _ _ E).
    now destruct (strings.ToUpper levelToken =? "TRACE")%string.
  - destruct (strings.ToUpper levelToken =? "TRACE")%string eqn:Et;
      [|reflexivity].
    apply String.eqb_eq in Et. rewrite Et in E. discriminate.
Qed.

(** One turn of the loop, by the rule that the token declares. *)
Lemma fromString_field_rule (isTraceLevels : bool) (fs : list filter) (g : Z)
      (tok : string) :
  fromString_field isTraceLevels (fs, g) tok
  = match tokenRule isTraceLevels tok with
    | None => (fs, g)
    | Some r => if isEmpty (Pattern r) then (fs, Level r)
                else ((fs ++ [r])%list, g)
    end.
Proof.
  unfold fromString_field, tokenRule, tokenLevel, tokenPattern.
  pose proof (Split_token tok) as Hs.
  destruct (countByte "=" tok) as [|[|n]] eqn:Ec.
  - rewrite Hs. simpl Nat.ltb. cbv iota.
    rewrite (proj2 (countByte_hasByte "=" tok) Ec).
    rewrite parsed_levelOf.
    destruct (levelOf isTraceLevels tok); reflexivity.
  - rewrite Hs. simpl Nat.ltb. cbv iota.
    assert (Hb : hasByte "=" tok = true).
    { destruct (hasByte "=" tok) eqn:E; [reflexivity|].
      apply countByte_hasByte in E. lia. }
    rewrite Hb, parsed_levelOf.
    destruct (levelOf isTraceLevels (afterFirst "=" tok)); reflexivity.
  - destruct Hs as (t0 & t1 & t2 & ts & ->). reflexivity.
Qed.

Lemma fromString_fold (isTraceLevels : bool) (fields : list string) :
  forall (fs : list filter) (g : Z),
    fold_left (fromString_field isTraceLevels) fields (fs, g)
    = ((fs ++ List.filter (fun r => negb (isEmpty (Pattern r)))
                   (present (map (tokenRule isTraceLevels) fields)))%list,
       last (map Level
                 (List.filter (fun r => isEmpty (Pattern r))
                    (present (map (tokenRule isTraceLevels) fields))))
            g).
Proof.
  induction fields as [|tok rest IH]; intros fs g.
  - simpl. now rewrite app_nil_r.
  - cbn [fold_left map]. rewrite fromString_field_rule.
    destruct (tokenRule isTraceLevels tok) as [r|]; cbn [present].
    + cbn [List.filter]. destruct (isEmpty (Pattern r)); cbn [negb].
      * rewrite IH. cbn [map]. now rewrite last_cons.
      * rewrite IH. now rewrite <- app_assoc.
    + apply IH.
Qed.

(** What [fromString] leaves in [spec.filters]: the rules it found there,
    the patterned rules of the string in the order of their declaration, and
    last the global rule, unless it is the disabled one of the trace axis. *)
Lemma fromString_filters (spec : filterSpec) (s : string)
      (isTraceLevels : bool) (default : Z) :
  filters (fromString spec s isTraceLevels default)
  = (filters spec ++ patternedRules isTraceLevels s
     ++ (if negb isTraceLevels
            || negb (globalThreshold isTraceLevels s default =? noTraceOutput)
         then [mkFilter EmptyString (globalThreshold isTraceLevels s default)]
         else []))%list.
Proof.
  unfold fromString, patternedRules, globalThreshold, declaredRules.
  rewrite fromString_fold.
  destruct (negb isTraceLevels || negb (_ =? noTraceOutput)); cbn [filters].
  - now rewrite <- app_assoc.
  - now rewrite app_nil_r.
Qed.

Lemma invalidToken_rule (isTraceLevels : bool) (tok : string) :
  invalidToken isTraceLevels tok = true <-> tokenRule isTraceLevels tok = None.
Proof.
  unfold invalidToken, tokenRule.
  destruct (1 <? countByte "=" tok)%nat; [simpl; tauto|].
  destruct (levelOf isTraceLevels (tokenLevel tok)); simpl;
    split; congruence.
Qed.

End FilterSpecFacts.

(** C3. [fromString] keeps at most one global rule; its threshold is that of
    the last valid pattern-less token of the string, or the default; it is put
    after the patterned rules, which stay in the order of their declaration and
    all have a pattern.  On the log axis "WARN,a.go=DEBUG" gives the rule for
    a.go first and the global WARN rule last. *)
Theorem fromString_global_rule_last `{Unicode} (spec : filterSpec) (s : string)
        (isTraceLevels : bool) (default : Z) :
  let global :=
    if negb isTraceLevels
       || negb (globalThreshold isTraceLevels s default =? noTraceOutput)
    then [mkFilter EmptyString (globalThreshold isTraceLevels s default)]
    else [] in
  filters (fromString spec s isTraceLevels default)
  = (filters spec ++ patternedRules isTraceLevels s ++ global)%list /\
  (List.length global <= 1)%nat /\
  Forall (fun r => Pattern r <> EmptyString) (patternedRules isTraceLevels s) /\
  filters (fromString (mkFilterSpec []) "WARN,a.go=DEBUG" false levelInfo)
  = [mkFilter "a.go" levelDebug; mkFilter "" levelWarn].
Proof.
  cbv zeta. split; [apply fromString_filters|]. split; [|split].
  - destruct (negb isTraceLevels || negb (_ =? noTraceOutput)); simpl; lia.
  - unfold patternedRules. apply Forall_forall. intros r Hin.
    apply filter_In in Hin as [_ Hp].
    apply negb_true_iff in Hp. now apply isEmpty_false.
  - vm_compute. reflexivity.
Qed.

(** C4. On the trace axis, when the global threshold that the string resolves
    to is the disabled one (-1) and the string declares no patterned rule,
    [fromString] leaves a new [filterSpec] empty: every query is rejected,
    and [Trace] leaves through its test of the empty sequence. *)
Theorem trace_disabled_leaves_no_rule `{Unicode} (s : string) (default : Z) :
  globalThreshold true s default = noTraceOutput ->
  patternedRules true s = [] ->
  filters (fromString (mkFilterSpec []) s true default) = [] /\
  (forall (fileName : string) (level : Z),
      matchfilters (fromString (mkFilterSpec []) s true default)
                   fileName level = false) /\
  (forall (logSpec : filterSpec) (caller : option string) (traceLevel : Z),
      Trace_allowLog logSpec (fromString (mkFilterSpec []) s true default)
                     caller traceLevel = false).
Proof.
  intros Hg Hp.
  assert (E : filters (fromString (mkFilterSpec []) s true default) = []).
  { rewrite fromString_filters, Hg, Hp. reflexivity. }
  split; [exact E|]. split.
  - intros fileName level. unfold matchfilters. now rewrite E.
  - intros logSpec caller traceLevel. unfold Trace_allowLog. now rewrite E.
Qed.

(** The trace specification "off,-1": an invalid token and the disabled level. *)
Lemma trace_disabled_leaves_no_rule_witness :
  filters (@fromString asciiOnly (mkFilterSpec []) "off,-1" true noTraceOutput)
  = [].
Proof.
  apply (@trace_disabled_leaves_no_rule asciiOnly "off,-1" noTraceOutput);
    reflexivity.
Defined.

(** C8. [fromString] is a total function, and a turn of its loop leaves the
    rules and the global level as they are for every invalid token: on the
    trace axis a token whose level is no integer, on the log axis a token whose
    level is no severity name or is TRACE in any case, on both a token with
    more than one '='.  The whole loop does what it does on the valid tokens
    alone. *)
Theorem fromString_skips_invalid_tokens `{Unicode} (isTraceLevels : bool)
        (st : list filter * Z) (tok : string) :
  (1 < countByte "=" tok)%nat \/
  (isTraceLevels = true /\ strconv.Atoi (tokenLevel tok) = None) \/
  (isTraceLevels = false /\
   (levelNumbers (strings.ToUpper (tokenLevel tok)) = None \/
    strings.ToUpper (tokenLevel tok) = "TRACE")) ->
  invalidToken isTraceLevels tok = true /\
  fromString_field isTraceLevels st tok = st /\
  (forall (before after : list string),
      fold_left (fromString_field isTraceLevels)
                (before ++ tok :: after)%list st
      = fold_left (fromString_field isTraceLevels) (before ++ after)%list st).
Proof.
  intros Hinv.
  assert (Hi : invalidToken isTraceLevels tok = true).
  { unfold invalidToken, levelOf.
    destruct Hinv as [Hc | [[-> Ha] | [-> [Hl | Ht]]]].
    - apply Nat.ltb_lt in Hc. now rewrite Hc.
    - rewrite Ha. apply orb_true_r.
    - rewrite Hl.
      destruct (strings.ToUpper (tokenLevel tok) =? "TRACE")%string;
        apply orb_true_r.
    - rewrite Ht. apply orb_true_r. }
  assert (Hstep : forall st', fromString_field isTraceLevels st' tok = st').
  { intros [fs g]. rewrite fromString_field_rule.
    now rewrite (proj1 (invalidToken_rule isTraceLevels tok) Hi). }
  split; [exact Hi|]. split; [apply Hstep|].
  intros before after. rewrite !fold_left_app. cbn [fold_left].
  now rewrite Hstep.
Qed.

(** The token "b.go=Trace" on the log axis. *)
Lemma fromString_skips_invalid_tokens_witness :
  @fromString_field asciiOnly false ([mkFilter "a.go" levelErr], levelInfo)
                    "b.go=Trace"
  = ([mkFilter "a.go" levelErr], levelInfo).
Proof.
  apply (@fromString_skips_invalid_tokens asciiOnly false
           ([mkFilter "a.go" levelErr], levelInfo) "b.go=Trace").
  right. right. split; [reflexivity|]. right. reflexivity.
Defined.

(** ** Configuration *)

Section ConfigFacts.
Context `{Unicode}.

(** A blank line is ignored. *)
Lemma updateConfigLine_blank (config : rlogEnvConfig)
      (stderr : list diagnostic) (i : Z) (text : string) :
  strings.TrimSpace text = EmptyString ->
  updateConfigLine config stderr i text = Returned (config, stderr).
Proof. intros E. unfold updateConfigLine. now rewrite E. Qed.

Lemma SplitN2_none (c : ascii) (s : string) :
  hasByte c s = false -> strings.SplitN2 s c = [s].
Proof.
  induction s as [|d t IH]; simpl; [reflexivity|].
  intros Hb. apply orb_false_iff in Hb as [Hd Ht].
  now rewrite Hd, (IH Ht).
Qed.

Lemma SplitN2_first (c : ascii) (s : string) :
  hasByte c s = true ->
  strings.SplitN2 s c = [beforeFirst c s; afterFirst c s].
Proof.
  induction s as [|d t IH]; simpl; [discriminate|].
  destruct (Ascii.eqb d c); simpl; [reflexivity|].
  intros Hb. now rewrite (IH Hb).
Qed.

(** A line without '=' gets a diagnostic and changes nothing. *)
Lemma updateConfigLine_malformed (config : rlogEnvConfig)
      (stderr : list diagnostic) (i : Z) (text : string) :
  strings.TrimSpace text <> EmptyString ->
  hasByte "=" (strings.TrimSpace text) = false ->
  updateConfigLine config stderr i text
  = Returned (config,
              (stderr ++ [MalformedLine i [strings.TrimSpace text]])%list).
Proof.
  intros Hne Hb. unfold updateConfigLine.
  rewrite (proj2 (isEmpty_false _) Hne).
  now rewrite (SplitN2_none _ _ Hb).
Qed.

(** A line with '=' is handed to the switch over the setting names. *)
Lemma updateConfigLine_setting (config : rlogEnvConfig)
      (stderr : list diagnostic) (i : Z) (text : string) :
  hasByte "=" (strings.TrimSpace text) = true ->
  updateConfigLine config stderr i text
  = applySetting config stderr i
      (strings.TrimSpace (beforeFirst "=" (strings.TrimSpace text)))
      (strings.TrimSpace (afterFirst "=" (strings.TrimSpace text))).
Proof.
  intros Hb. unfold updateConfigLine.
  destruct (isEmpty (strings.TrimSpace text)) eqn:E.
  - apply isEmpty_true in E. rewrite E in Hb. discriminate.
  - now rewrite (SplitN2_first _ _ Hb).
Qed.

(** The switch panics on an empty name, and on nothing else. *)
Lemma applySetting_panics (config : rlogEnvConfig) (stderr : list diagnostic)
      (i : Z) (name val : string) :
  applySetting config stderr i name val = Panicked <-> name = EmptyString.
Proof.
  unfold applySetting. destruct name as [|c0 rest]; [tauto|].
  split; [|discriminate].
  repeat match goal with
         | |- context [if (?a =? ?b)%string then _ else _] =>
             destruct (a =? b)%string
         end; discriminate.
Qed.

(** A line panics exactly when it has a '=' with nothing but white space
    before it. *)
Lemma updateConfigLine_panics (config : rlogEnvConfig)
      (stderr : list diagnostic) (i : Z) (text : string) :
  updateConfigLine config stderr i text = Panicked <->
  hasByte "=" (strings.TrimSpace text) = true /\
  strings.TrimSpace (beforeFirst "=" (strings.TrimSpace text)) = EmptyString.
Proof.
  destruct (hasByte "=" (strings.TrimSpace text)) eqn:Hb.
  - rewrite (updateConfigLine_setting _ _ _ _ Hb), applySetting_panics. tauto.
  - split; [|intros [? _]; discriminate].
    unfold updateConfigLine.
    destruct (isEmpty (strings.TrimSpace text)); [discriminate|].
    rewrite (SplitN2_none _ _ Hb). discriminate.
Qed.

(** A name that is no setting gets a diagnostic and changes nothing. *)
Lemma applySetting_unknown (config : rlogEnvConfig) (stderr : list diagnostic)
      (i : Z) (priority : bool) (name val : string) :
  name <> EmptyString -> (priority = false -> String.get 0 name <> Some "!"%char) ->
  (forall f, name <> settingName f) ->
  applySetting config stderr i (if priority then "!" ++ name else name) val
  = Returned (config, (stderr ++ [UnknownSetting i])%list).
Proof.
  intros Hne Hmark Hun.
  assert (Hk : forall f, (name =? settingName f)%string = false).
  { intros f. destruct (name =? settingName f)%string eqn:E; [|reflexivity].
    apply String.eqb_eq in E. now elim (Hun f). }
  pose proof (Hk LogLevelSetting) as K1. pose proof (Hk TraceLevelSetting) as K2.
  pose proof (Hk TimeFormatSetting) as K3. pose proof (Hk LogFileSetting) as K4.
  pose proof (Hk ConfFileSetting) as K5. pose proof (Hk LogStreamSetting) as K6.
  pose proof (Hk NoTimeSetting) as K7. pose proof (Hk CallerInfoSetting) as K8.
  cbn [settingName] in *.
  destruct priority.
  - cbn [append applySetting]. change (Ascii.eqb "!" "!") with true. cbv iota.
    now rewrite K1, K2, K3, K4, K5, K6, K7, K8.
  - destruct name as [|c0 rest]; [congruence|]. cbn [applySetting].
    assert (Hc : Ascii.eqb c0 "!" = false).
    { destruct (Ascii.eqb_spec c0 "!"); [|reflexivity].
      subst. simpl in Hmark. now elim (Hmark eq_refl). }
    rewrite Hc. cbv iota.
    now rewrite K1, K2, K3, K4, K5, K6, K7, K8.
Qed.

End ConfigFacts.

(** C5, the claim as stated fails: the value merged for the log stream is
    not the value of the config file but its upper case. *)
Lemma merged_value_is_not_always_the_file_value :
  ~ (forall (U : Unicode) (f : setting) (config : rlogEnvConfig)
            (val : string) (priority : bool),
        f <> ConfFileSetting ->
        @mergedValue U f config val priority
        = Some (if priority || isEmpty (settingValue f config)
                then val else settingValue f config)).
Proof.
  intros Hclaim.
  specialize (Hclaim asciiOnly LogStreamSetting
                     (mkConfig "" "" "" "" "" "" "" "") "stdout" false).
  vm_compute in Hclaim.
  assert (Hne : LogStreamSetting <> ConfFileSetting) by discriminate.
  specialize (Hclaim Hne). discriminate.
Qed.

(** C5, amended. For every setting but the path of the config file, the
    value after a config-file line for it is the value of the line (in upper
    case for the log stream) when the environment value is empty or the name
    carries the '!' mark, and the environment value otherwise; no line changes
    the path of the config file.  With "DEBUG" in the environment the line
    "RLOG_LOG_LEVEL=INFO" leaves "DEBUG", and "!RLOG_LOG_LEVEL=INFO" gives
    "INFO" whatever the environment. *)
Theorem config_merge_policy `{Unicode} (f : setting) (config : rlogEnvConfig)
        (val : string) (priority : bool) :
  f <> ConfFileSetting ->
  mergedValue f config val priority
  = Some (if priority || isEmpty (settingValue f config)
          then fileValue f val else settingValue f config) /\
  mergedValue ConfFileSetting config val priority = Some (confFile config) /\
  (forall c : rlogEnvConfig,
      logLevel c = "DEBUG" ->
      option_map logLevel (mergedFromFile ["RLOG_LOG_LEVEL=INFO"] c)
      = Some "DEBUG") /\
  (forall c : rlogEnvConfig,
      option_map logLevel (mergedFromFile ["!RLOG_LOG_LEVEL=INFO"] c)
      = Some "INFO").
Proof.
  intros Hf. split; [|split; [|split]].
  - destruct f; try (now elim Hf); destruct priority; reflexivity.
  - destruct priority; reflexivity.
  - intros c Hc. unfold mergedFromFile. cbn. unfold updateIfNeeded.
    now rewrite Hc.
  - intros c. reflexivity.
Qed.

(** The line RLOG_LOG_STREAM=stdout with no log stream in the environment. *)
Lemma config_merge_policy_witness :
  @mergedValue asciiOnly LogStreamSetting
               (mkConfig "DEBUG" "" "" "" "" "" "" "") "stdout" false
  = Some "STDOUT".
Proof.
  apply (@config_merge_policy asciiOnly LogStreamSetting
           (mkConfig "DEBUG" "" "" "" "" "" "" "") "stdout" false).
  discriminate.
Defined.

(** C6. A config-file line whose name is empty makes [updateConfigFromFile]
    panic at [name[0]]: the lines after it are not read, and the process
    stops. *)
Theorem empty_setting_name_panics `{Unicode} (config : rlogEnvConfig) :
  updateConfigFromFile (Some ["=x"; "RLOG_LOG_LEVEL=DEBUG"]) config = Panicked.
Proof. reflexivity. Qed.

(** ** The boolean recognizer *)

Lemma upperByte_not_lower (c : ascii) : isLowerByte (strings.upperByte c) = false.
Proof. destruct c as [[] [] [] [] [] [] [] []]; reflexivity. Qed.

Lemma upperASCII_not_lower (s : string) : hasLower (strings.upperASCII s) = false.
Proof.
  induction s as [|c t IH]; simpl; [reflexivity|].
  now rewrite upperByte_not_lower, IH.
Qed.

(** The strings that [isTrueBoolString] takes for true, after [ToUpper]. *)
Lemma true_after_upper (u : string) :
  (if ((u =? "Y") || (u =? "YES"))%string then true
   else match strconv.ParseBool u with
        | Some true => true
        | _ => false
        end) = true
  <-> In u ["Y"; "YES"; "1"; "t"; "T"; "TRUE"; "true"; "True"].
Proof.
  unfold strconv.ParseBool. cbn [In].
  repeat match goal with
         | |- context [(u =? ?l)%string] =>
             destruct (String.eqb_spec u l) as [->|?];
             [vm_compute; split;
              [first [intros _; tauto | discriminate]
              |first [reflexivity
                     |intros Hin;
                      repeat (destruct Hin as [Hin|Hin]; [discriminate|]);
                      contradiction]]|]
         end.
  cbn. split; [discriminate|]. intros Hin.
  repeat (destruct Hin as [Hin|Hin]; [congruence|]). contradiction.
Qed.

(** C9, the claim as stated fails: "t" is taken for true too. *)
Lemma isTrueBoolString_takes_t_for_true :
  ~ (forall (U : Unicode) (str : string),
        @isTrueBoolString U str = true <->
        @sameIgnoringCase U str "y" \/ @sameIgnoringCase U str "yes" \/
        @sameIgnoringCase U str "true" \/ @sameIgnoringCase U str "1").
Proof.
  intros Hclaim.
  destruct (proj1 (Hclaim asciiOnly "t") eq_refl) as [E|[E|[E|E]]];
    vm_compute in E; discriminate.
Qed.

(** C9, amended. [isTrueBoolString] returns true exactly for the strings
    whose upper case is "Y", "YES" or a string that [strconv.ParseBool] reads
    as true; for an ASCII string these are "y", "yes", "true", "t" and "1",
    compared without regard to case.  It returns false for every other
    string, being a boolean. *)
Theorem isTrueBoolString_spec `{Unicode} (str : string) :
  (isTrueBoolString str = true <->
   In (strings.ToUpper str)
      ["Y"; "YES"; "1"; "t"; "T"; "TRUE"; "true"; "True"]) /\
  (strings.isASCII str = true ->
   (isTrueBoolString str = true <->
    sameIgnoringCase str "y" \/ sameIgnoringCase str "yes" \/
    sameIgnoringCase str "true" \/ sameIgnoringCase str "t" \/
    sameIgnoringCase str "1")).
Proof.
  assert (Hgen : isTrueBoolString str = true <->
                 In (strings.ToUpper str)
                    ["Y"; "YES"; "1"; "t"; "T"; "TRUE"; "true"; "True"])
    by apply true_after_upper.
  split; [exact Hgen|].
  - intros Hascii. rewrite Hgen. unfold sameIgnoringCase.
    change (strings.ToUpper "y") with "Y".
    change (strings.ToUpper "yes") with "YES".
    change (strings.ToUpper "true") with "TRUE".
    change (strings.ToUpper "t") with "T".
    change (strings.ToUpper "1") with "1".
    assert (Hlow : hasLower (strings.ToUpper str) = false)
      by (unfold strings.ToUpper; rewrite Hascii; apply upperASCII_not_lower).
    cbn [In]. split.
    + intros [E|[E|[E|[E|[E|[E|[E|[E|[]]]]]]]]]; try (symmetry in E; tauto);
        rewrite <- E in Hlow; discriminate.
    + intros [E|[E|[E|[E|E]]]]; rewrite E; tauto.
Qed.

(** The string "T". *)
Lemma isTrueBoolString_spec_witness :
  @isTrueBoolString asciiOnly "T" = true.
Proof.
  apply (proj2 (@isTrueBoolString_spec asciiOnly "T") eq_refl).
  right. right. right. left. reflexivity.
Defined.

(** * Further properties *)

(** ** Filter sequences *)

Lemma filter_match_fst_level (f : filter) (fileName : string) (l1 l2 : Z) :
  fst (filter_match f fileName l1) = fst (filter_match f fileName l2).
Proof.
  unfold filter_match.
  destruct (if negb (isEmpty (Pattern f)) then _ else true); reflexivity.
Qed.

Lemma matchfilters_range_monotone (fs : list filter) (fileName : string)
      (l1 l2 : Z) :
  l1 <= l2 ->
  matchfilters_range fs fileName l2 = true ->
  matchfilters_range fs fileName l1 = true.
Proof.
  intros Hle. induction fs as [|f rest IH]; simpl; [congruence|].
  pose proof (filter_match_fst_level f fileName l1 l2) as Hm.
  pose proof (filter_match_snd f fileName l1) as H1.
  pose proof (filter_match_snd f fileName l2) as H2.
  destruct (filter_match f fileName l1) as [m1 g1].
  destruct (filter_match f fileName l2) as [m2 g2].
  cbn [fst snd] in *. subst m2.
  destruct m1; [|exact IH].
  subst g1 g2. cbn [andb]. rewrite !Z.leb_le. lia.
Qed.

Lemma matchfilters_level_le (spec : filterSpec) (fileName : string)
      (l1 l2 : Z) :
  l1 <= l2 ->
  matchfilters spec fileName l2 = true ->
  matchfilters spec fileName l1 = true.
Proof.
  intros Hle. unfold matchfilters.
  destruct (List.length (filters spec) =? 0)%nat; [congruence|].
  now apply matchfilters_range_monotone.
Qed.

(** A message more urgent than one that a filter sequence accepts for a file
    is accepted for that file too. *)
Theorem matchfilters_monotone (spec : filterSpec) (fileName : string)
        (l1 l2 : Z) :
  l1 <= l2 ->
  matchfilters spec fileName l2 = true ->
  matchfilters spec fileName l1 = true.
Proof. apply matchfilters_level_le. Qed.

(** The rules a.go=WARN and global INFO: a.go at WARN, hence at ERROR. *)
Lemma matchfilters_monotone_witness :
  matchfilters (mkFilterSpec [mkFilter "a.go" levelWarn; mkFilter "" levelInfo])
               "pkg/a.go" levelErr = true.
Proof.
  apply (matchfilters_monotone
           (mkFilterSpec [mkFilter "a.go" levelWarn; mkFilter "" levelInfo])
           "pkg/a.go" levelErr levelWarn).
  - discriminate.
  - reflexivity.
Defined.

Lemma matchfilters_range_global (before after : list filter) (g : Z)
      (fileName : string) (level : Z) :
  matchfilters_range (before ++ mkFilter EmptyString g :: after)%list
                     fileName level
  = matchfilters_range (before ++ [mkFilter EmptyString g])%list
                       fileName level.
Proof.
  induction before as [|f rest IH]; [reflexivity|].
  cbn [app matchfilters_range]. now rewrite IH.
Qed.

Lemma matchfilters_nonempty (fs : list filter) (fileName : string) (level : Z) :
  matchfilters (mkFilterSpec fs) fileName level
  = matchfilters_range fs fileName level.
Proof. unfold matchfilters. now destruct fs. Qed.

(** A rule behind a global rule never decides a query. *)
Theorem rules_after_global_rule_are_dead (before after : list filter) (g : Z)
        (fileName : string) (level : Z) :
  matchfilters (mkFilterSpec (before ++ mkFilter EmptyString g :: after)%list)
               fileName level
  = matchfilters (mkFilterSpec (before ++ [mkFilter EmptyString g])%list)
                 fileName level.
Proof. rewrite !matchfilters_nonempty. apply matchfilters_range_global. Qed.

(** ** Level names *)

(** [levelStrings] and [levelNumbers] are inverse to each other. *)
Theorem level_names_round_trip (level : Z) (name : string) :
  levelStrings level = Some name <-> levelNumbers name = Some level.
Proof.
  unfold levelStrings, levelNumbers. split.
  - repeat match goal with
           | |- context [if level =? ?l then _ else _] =>
               destruct (Z.eqb_spec level l) as [->|?];
               [intros Heq; inversion Heq; reflexivity|]
           end.
    discriminate.
  - repeat match goal with
           | |- context [if (name =? ?s)%string then _ else _] =>
               destruct (String.eqb_spec name s) as [->|?];
               [intros Heq; inversion Heq; reflexivity|]
           end.
    discriminate.
Qed.

(** ** Filter specifications on the two axes *)

Lemma levelNumbers_range (name : string) (l : Z) :
  levelNumbers name = Some l -> levelNone <= l <= levelTrace.
Proof.
  unfold levelNumbers.
  repeat match goal with
         | |- context [if (name =? ?s)%string then _ else _] =>
             destruct (name =? s)%string;
             [intros Heq; inversion Heq; vm_compute; split; discriminate|]
         end.
  discriminate.
Qed.

Section AxisFacts.
Context `{Unicode}.

Lemma levelOf_log_range (level : string) (l : Z) :
  levelOf false level = Some l -> levelNone <= l <= levelDebug.
Proof.
  unfold levelOf.
  destruct (strings.ToUpper level =? "TRACE")%string eqn:Et; [discriminate|].
  intros Hl. pose proof (levelNumbers_range _ _ Hl) as Hr.
  pose proof (levelNumbers_trace _ _ Hl) as Ht. rewrite Et in Ht.
  apply Z.eqb_neq in Ht. unfold levelDebug, levelTrace in *. lia.
Qed.

Lemma present_tokenRule_in (isTraceAxis : bool) (fields : list string)
      (r : filter) :
  In r (present (map (tokenRule isTraceAxis) fields)) ->
  exists tok, In tok fields /\ tokenRule isTraceAxis tok = Some r.
Proof.
  induction fields as [|tok rest IH]; simpl; [tauto|].
  destruct (tokenRule isTraceAxis tok) as [r0|] eqn:E.
  - intros [->|Hin]; [exists tok; tauto|].
    destruct (IH Hin) as (t & Ht & Hr). exists t; tauto.
  - intros Hin. destruct (IH Hin) as (t & Ht & Hr). exists t; tauto.
Qed.

Lemma declaredRules_log_range (s : string) :
  Forall (fun r => levelNone <= Level r <= levelDebug) (declaredRules false s).
Proof.
  apply Forall_forall. intros r Hin.
  apply present_tokenRule_in in Hin as (tok & _ & Hr).
  unfold tokenRule in Hr.
  destruct (1 <? countByte "=" tok)%nat; [discriminate|].
  destruct (levelOf false (tokenLevel tok)) as [l|] eqn:El; [|discriminate].
  inversion Hr; subst. cbn [Level]. now apply levelOf_log_range in El.
Qed.

Lemma last_Forall (P : Z -> Prop) (l : list Z) (d : Z) :
  Forall P l -> P d -> P (last l d).
Proof.
  intros Hl Hd. induction Hl as [|a l Ha Hl IH]; [exact Hd|].
  destruct l as [|b l]; [exact Ha | exact IH].
Qed.

Lemma globalThreshold_log_range (s : string) (default : Z) :
  levelNone <= default <= levelDebug ->
  levelNone <= globalThreshold false s default <= levelDebug.
Proof.
  intros Hd. unfold globalThreshold.
  apply (last_Forall (fun l => levelNone <= l <= levelDebug)); [|exact Hd].
  apply Forall_forall. intros l Hin.
  apply in_map_iff in Hin as (r & <- & Hr).
  apply filter_In in Hr as [Hr _].
  exact (proj1 (Forall_forall _ _) (declaredRules_log_range s) r Hr).
Qed.

Lemma patternedRules_patterns (isTraceAxis : bool) (s : string) :
  Forall (fun r => Pattern r <> EmptyString) (patternedRules isTraceAxis s).
Proof.
  unfold patternedRules. apply Forall_forall. intros r Hin.
  apply filter_In in Hin as [_ Hp].
  apply negb_true_iff in Hp. now apply isEmpty_false.
Qed.

Lemma matchfilters_range_ends_global (front : list filter) (g : Z)
      (fileName : string) (level : Z) :
  firstMatching (front ++ [mkFilter EmptyString g])%list fileName level
  <> None.
Proof.
  unfold firstMatching. induction front as [|f rest IH]; simpl.
  - discriminate.
  - destruct (fst (filter_match f fileName level)); [discriminate | exact IH].
Qed.

Lemma matchfilters_range_above (fs : list filter) (fileName : string) :
  Forall (fun r => levelNone <= Level r <= levelDebug) fs ->
  matchfilters_range fs fileName levelTrace = false.
Proof.
  intros Hrange. induction Hrange as [|r rest Hr _ IH]; [reflexivity|].
  cbn [matchfilters_range].
  pose proof (filter_match_snd r fileName levelTrace) as Hs.
  destruct (filter_match r fileName levelTrace) as [m l].
  cbn [fst snd] in Hs. destruct m; [|exact IH].
  subst l. cbn [andb]. apply Z.leb_gt.
  unfold levelDebug, levelTrace in *. lia.
Qed.

Lemma fromString_log_range (s : string) (default : Z) :
  levelNone <= default <= levelDebug ->
  Forall (fun r => levelNone <= Level r <= levelDebug)
         (filters (fromString (mkFilterSpec []) s false default)).
Proof.
  intros Hd. rewrite fromString_filters. cbn [filters app negb orb].
  apply Forall_app. split.
  - unfold patternedRules. apply Forall_forall. intros r Hin.
    apply filter_In in Hin as [Hin _].
    exact (proj1 (Forall_forall _ _) (declaredRules_log_range s) r Hin).
  - constructor; [|constructor]. cbn [Level].
    now apply globalThreshold_log_range.
Qed.

End AxisFacts.

(** On the log axis [fromString] fills a new [filterSpec] with patterned
    rules followed by one global rule, every threshold being a severity from
    NONE to DEBUG: each query is decided by some rule, and a query at the level
    TRACE is rejected. *)
Theorem log_axis_spec_invariant `{Unicode} (s : string) (default : Z) :
  levelNone <= default <= levelDebug ->
  let fs := filters (fromString (mkFilterSpec []) s false default) in
  (exists (front : list filter) (g : Z),
      fs = (front ++ [mkFilter EmptyString g])%list /\
      Forall (fun r => Pattern r <> EmptyString) front) /\
  Forall (fun r => levelNone <= Level r <= levelDebug) fs /\
  (forall (fileName : string) (level : Z),
      firstMatching fs fileName level <> None) /\
  (forall fileName : string,
      matchfilters (mkFilterSpec fs) fileName levelTrace = false).
Proof.
  intros Hd. cbv zeta.
  assert (E : filters (fromString (mkFilterSpec []) s false default)
              = (patternedRules false s
                 ++ [mkFilter EmptyString (globalThreshold false s default)])%list)
    by (rewrite fromString_filters; reflexivity).
  rewrite E.
  pose proof (fromString_log_range s default Hd) as Hrange.
  rewrite E in Hrange.
  split; [|split; [exact Hrange|split]].
  - exists (patternedRules false s), (globalThreshold false s default).
    split; [reflexivity | apply patternedRules_patterns].
  - intros fileName level. apply matchfilters_range_ends_global.
  - intros fileName. rewrite matchfilters_nonempty.
    now apply matchfilters_range_above.
Qed.

(** The log specification "client.go=ERROR,INFO". *)
Lemma log_axis_spec_invariant_witness :
  matchfilters
    (mkFilterSpec
       (filters (@fromString asciiOnly (mkFilterSpec [])
                             "client.go=ERROR,INFO" false levelInfo)))
    "net/client.go" levelTrace = false.
Proof.
  apply (@log_axis_spec_invariant asciiOnly "client.go=ERROR,INFO" levelInfo).
  split; discriminate.
Defined.

Lemma matchfilters_filters (spec : filterSpec) (fileName : string) (level : Z) :
  matchfilters spec fileName level
  = matchfilters_range (filters spec) fileName level.
Proof. destruct spec as [fs]. apply matchfilters_nonempty. Qed.

(** Once [fromString] has filled a [filterSpec] on the log axis, a second
    call on the same [filterSpec] changes no decision: its rules come behind
    the global rule of the first. *)
Theorem fromString_again_changes_no_decision `{Unicode} (spec : filterSpec)
        (s1 s2 : string) (default1 default2 : Z) (isTraceLevels2 : bool)
        (fileName : string) (level : Z) :
  matchfilters (fromString (fromString spec s1 false default1)
                           s2 isTraceLevels2 default2) fileName level
  = matchfilters (fromString spec s1 false default1) fileName level.
Proof.
  rewrite !matchfilters_filters.
  rewrite (fromString_filters (fromString spec s1 false default1)).
  rewrite (fromString_filters spec s1 false default1).
  cbn [negb orb].
  rewrite !app_assoc. rewrite <- !app_assoc.
  rewrite (app_assoc (filters spec)).
  cbn [app]. rewrite matchfilters_range_global.
  now rewrite <- app_assoc.
Qed.

Lemma Split_keeps_absence (c d : ascii) (s tok : string) :
  hasByte d s = false -> In tok (strings.Split s c) -> hasByte d tok = false.
Proof.
  revert tok. induction s as [|e t IH]; intros tok Hs Hin.
  - simpl in Hin. destruct Hin as [<-|[]]. reflexivity.
  - simpl in Hs. apply orb_false_iff in Hs as [He Ht].
    simpl in Hin. destruct (Ascii.eqb e c).
    + destruct Hin as [<-|Hin]; [reflexivity | now apply IH].
    + pose proof (IH) as IH'.
      destruct (strings.Split t c) as [|x xs] eqn:E.
      * destruct Hin as [<-|[]]. simpl. now rewrite He.
      * destruct Hin as [<-|Hin].
        -- simpl. rewrite He. apply IH; [exact Ht | now left].
        -- apply IH; [exact Ht | now right].
Qed.

Lemma patternedRules_without_eq `{Unicode} (isTraceAxis : bool) (s : string) :
  hasByte "=" s = false -> patternedRules isTraceAxis s = [].
Proof.
  intros Hs. unfold patternedRules.
  assert (Hall : forall r, In r (declaredRules isTraceAxis s) ->
                           negb (isEmpty (Pattern r)) = false).
  { intros r Hin. apply present_tokenRule_in in Hin as (tok & Htok & Hr).
    pose proof (Split_keeps_absence "," "=" s tok Hs Htok) as Hb.
    unfold tokenRule, tokenPattern in Hr. rewrite Hb in Hr.
    destruct (1 <? countByte "=" tok)%nat; [discriminate|].
    destruct (levelOf isTraceAxis (tokenLevel tok)); [|discriminate].
    inversion Hr; reflexivity. }
  induction (declaredRules isTraceAxis s) as [|r rest IH]; [reflexivity|].
  cbn [List.filter]. rewrite (Hall r (or_introl eq_refl)).
  apply IH. intros r' Hin. apply Hall. now right.
Qed.

(** A specification string without '=' declares levels only: the new
    [filterSpec] decides every query by the level alone, against the last
    valid level of the string or the default, for every file; on the trace
    axis a threshold of -1 rejects every query. *)
Theorem spec_without_patterns_decides_by_level `{Unicode} (s : string)
        (isTraceLevels : bool) (default : Z) (fileName : string) (level : Z) :
  hasByte "=" s = false ->
  matchfilters (fromString (mkFilterSpec []) s isTraceLevels default)
               fileName level
  = (negb isTraceLevels
     || negb (globalThreshold isTraceLevels s default =? noTraceOutput))
    && (level <=? globalThreshold isTraceLevels s default).
Proof.
  intros Hs. rewrite matchfilters_filters, fromString_filters.
  rewrite (patternedRules_without_eq isTraceLevels s Hs). cbn [filters app].
  destruct (negb isTraceLevels || negb (_ =? noTraceOutput)); reflexivity.
Qed.

(** The trace specification "x,3": depth 4 is beyond the threshold 3. *)
Lemma spec_without_patterns_decides_by_level_witness :
  matchfilters (@fromString asciiOnly (mkFilterSpec []) "x,3" true noTraceOutput)
               "pkg/a.go" 4
  = false.
Proof.
  rewrite (@spec_without_patterns_decides_by_level asciiOnly "x,3" true
             noTraceOutput "pkg/a.go" 4); reflexivity.
Defined.

(** ** The emission functions *)

(** The severities are nested: for every pair of filter sequences and every
    caller, what [Debug] writes [Info] writes, what [Info] writes [Warn]
    writes, and so on to [Critical]. *)
Theorem severities_are_nested (logSpec traceSpec : filterSpec)
        (caller : option string) :
  (Debug_allowLog logSpec traceSpec caller = true ->
   Info_allowLog logSpec traceSpec caller = true) /\
  (Info_allowLog logSpec traceSpec caller = true ->
   Warn_allowLog logSpec traceSpec caller = true) /\
  (Warn_allowLog logSpec traceSpec caller = true ->
   Error_allowLog logSpec traceSpec caller = true) /\
  (Error_allowLog logSpec traceSpec caller = true ->
   Critical_allowLog logSpec traceSpec caller = true).
Proof.
  unfold Debug_allowLog, Info_allowLog, Warn_allowLog, Error_allowLog,
    Critical_allowLog, basicLog_allowLog.
  change (notATrace =? notATrace) with true. cbv iota.
  repeat split; apply matchfilters_level_le; discriminate.
Qed.

(** The rules a.go=DEBUG and global WARN, for a call from pkg/a.go. *)
Lemma severities_are_nested_witness :
  Info_allowLog (mkFilterSpec [mkFilter "a.go" levelDebug; mkFilter "" levelWarn])
                (mkFilterSpec []) (Some "/src/pkg/a.go") = true.
Proof.
  apply (proj1 (severities_are_nested
                  (mkFilterSpec [mkFilter "a.go" levelDebug;
                                 mkFilter "" levelWarn])
                  (mkFilterSpec []) (Some "/src/pkg/a.go"))).
  reflexivity.
Defined.

(** The trace depths are nested: a depth below one that [Trace] writes is
    written too, the depth -1 apart, which [basicLog] takes for the mark of a
    message that is no trace. *)
Theorem trace_depths_are_nested (logSpec traceSpec : filterSpec)
        (caller : option string) (d1 d2 : Z) :
  d1 <= d2 -> d1 <> notATrace -> d2 <> notATrace ->
  Trace_allowLog logSpec traceSpec caller d2 = true ->
  Trace_allowLog logSpec traceSpec caller d1 = true.
Proof.
  intros Hle H1 H2. unfold Trace_allowLog, basicLog_allowLog.
  destruct (0 <? List.length (filters traceSpec))%nat; [|congruence].
  rewrite (proj2 (Z.eqb_neq d1 notATrace) H1).
  rewrite (proj2 (Z.eqb_neq d2 notATrace) H2).
  now apply matchfilters_level_le.
Qed.

(** The trace rules ip*=5 and global 2, for a call from net/ipaddr.go. *)
Lemma trace_depths_are_nested_witness :
  Trace_allowLog (mkFilterSpec [mkFilter "" levelInfo])
                 (mkFilterSpec [mkFilter "ip*" 5; mkFilter "" 2])
                 (Some "/src/net/ipaddr.go") 3 = true.
Proof.
  apply (trace_depths_are_nested
           (mkFilterSpec [mkFilter "" levelInfo])
           (mkFilterSpec [mkFilter "ip*" 5; mkFilter "" 2])
           (Some "/src/net/ipaddr.go") 3 5).
  - discriminate.
  - discriminate.
  - discriminate.
  - reflexivity.
Defined.

(** ** Whole config files *)

Section FileFacts.
Context `{Unicode}.

Lemma updateConfigLine_nameless (config : rlogEnvConfig)
      (stderr : list diagnostic) (i : Z) (text : string) :
  updateConfigLine config stderr i text = Panicked <-> namelessLine text.
Proof. apply updateConfigLine_panics. Qed.

Lemma scanLines_nameless (lines : list string) :
  forall (config : rlogEnvConfig) (stderr : list diagnostic) (i : Z),
    scanLines config stderr i lines = Panicked <-> Exists namelessLine lines.
Proof.
  induction lines as [|text rest IH]; intros config stderr i.
  - simpl. split; [discriminate | intros Hex; inversion Hex].
  - cbn [scanLines].
    pose proof (updateConfigLine_nameless config stderr (i + 1) text) as Hl.
    destruct (updateConfigLine config stderr (i + 1) text) as [[c' e']|].
    + rewrite IH. split.
      * intros Hex. now apply Exists_cons_tl.
      * intros Hex. inversion Hex as [? ? Hbad|? ? Hrest]; subst;
          [|exact Hrest].
        apply Hl in Hbad. discriminate.
    + split; [|reflexivity]. intros _. apply Exists_cons_hd. now apply Hl.
Qed.

Lemma scanLines_app (l1 l2 : list string) :
  forall (config : rlogEnvConfig) (stderr : list diagnostic) (i : Z),
    scanLines config stderr i (l1 ++ l2)%list
    = match scanLines config stderr i l1 with
      | Returned (c1, e1) =>
          scanLines c1 e1 (i + Z.of_nat (List.length l1)) l2
      | Panicked => Panicked
      end.
Proof.
  induction l1 as [|text rest IH]; intros config stderr i.
  - simpl. now rewrite Z.add_0_r.
  - cbn [app scanLines].
    destruct (updateConfigLine config stderr (i + 1) text) as [[c' e']|];
      [|reflexivity].
    rewrite IH. cbn [List.length].
    now replace (i + 1 + Z.of_nat (List.length rest))
      with (i + Z.of_nat (S (List.length rest))) by lia.
Qed.

Lemma applySetting_confFile (config c' : rlogEnvConfig)
      (stderr e' : list diagnostic) (i : Z) (name val : string) :
  applySetting config stderr i name val = Returned (c', e') ->
  confFile c' = confFile config.
Proof.
  unfold applySetting. destruct name as [|c0 rest]; [discriminate|].
  repeat match goal with
         | |- context [if (?a =? ?b)%string then _ else _] =>
             destruct (a =? b)%string
         end; intros Heq; inversion Heq; reflexivity.
Qed.

Lemma updateConfigLine_confFile (config c' : rlogEnvConfig)
      (stderr e' : list diagnostic) (i : Z) (text : string) :
  updateConfigLine config stderr i text = Returned (c', e') ->
  confFile c' = confFile config.
Proof.
  unfold updateConfigLine.
  destruct (isEmpty (strings.TrimSpace text));
    [intros Heq; inversion Heq; reflexivity|].
  destruct (List.length (strings.SplitN2 (strings.TrimSpace text) "=") =? 0)%nat;
    [intros Heq; inversion Heq; reflexivity|].
  destruct (strings.SplitN2 (strings.TrimSpace text) "=") as [|t0 [|t1 [|t2 ts]]];
    try (intros Heq; inversion Heq; reflexivity).
  apply applySetting_confFile.
Qed.

Lemma scanLines_confFile (lines : list string) :
  forall (config c' : rlogEnvConfig) (stderr e' : list diagnostic) (i : Z),
    scanLines config stderr i lines = Returned (c', e') ->
    confFile c' = confFile config.
Proof.
  induction lines as [|text rest IH]; intros config c' stderr e' i.
  - simpl. intros Heq; inversion Heq; reflexivity.
  - cbn [scanLines].
    destruct (updateConfigLine config stderr (i + 1) text) as [[c1 e1]|] eqn:E;
      [|discriminate].
    intros Hrest. rewrite (IH _ _ _ _ _ Hrest).
    exact (updateConfigLine_confFile _ _ _ _ _ _ E).
Qed.

Lemma applySetting_keeps (f : setting) (config c' : rlogEnvConfig)
      (stderr e' : list diagnostic) (i : Z) (name val : string) :
  name <> "!" ++ settingName f ->
  settingValue f config <> EmptyString ->
  applySetting config stderr i name val = Returned (c', e') ->
  settingValue f c' = settingValue f config.
Proof.
  intros Hname Hval Happ. unfold applySetting in Happ.
  destruct name as [|c0 rest]; [discriminate|].
  assert (Hold : forall old new : string,
             old <> EmptyString -> updateIfNeeded old new false = old).
  { intros old new Ho. unfold updateIfNeeded.
    now rewrite (proj2 (isEmpty_false old) Ho). }
  destruct (Ascii.eqb_spec c0 "!") as [->|Hc];
    repeat match type of Happ with
           | context [if (?a =? ?b)%string then _ else _] =>
               destruct (String.eqb_spec a b)
           end;
    inversion Happ; subst; clear Happ;
    destruct f; cbn [settingValue logLevel traceLevel logTimeFormat logFile
                       confFile logStream logNoTime showCallerInfo] in *;
    try reflexivity;
    try (exfalso; apply Hname; reflexivity);
    now apply Hold.
Qed.

Lemma updateConfigLine_keeps (f : setting) (config c' : rlogEnvConfig)
      (stderr e' : list diagnostic) (i : Z) (text : string) :
  ~ marksSetting f text ->
  settingValue f config <> EmptyString ->
  updateConfigLine config stderr i text = Returned (c', e') ->
  settingValue f c' = settingValue f config.
Proof.
  intros Hmark Hval.
  destruct (hasByte "=" (strings.TrimSpace text)) eqn:Hb.
  - rewrite (updateConfigLine_setting _ _ _ _ Hb).
    apply applySetting_keeps; [|exact Hval].
    intros Hn. apply Hmark. split; [exact Hb | exact Hn].
  - unfold updateConfigLine.
    destruct (isEmpty (strings.TrimSpace text));
      [intros Heq; inversion Heq; reflexivity|].
    rewrite (SplitN2_none _ _ Hb). intros Heq; inversion Heq; reflexivity.
Qed.

Lemma scanLines_keeps (f : setting) (lines : list string) :
  forall (config c' : rlogEnvConfig) (stderr e' : list diagnostic) (i : Z),
    (forall text, In text lines -> ~ marksSetting f text) ->
    settingValue f config <> EmptyString ->
    scanLines config stderr i lines = Returned (c', e') ->
    settingValue f c' = settingValue f config.
Proof.
  induction lines as [|text rest IH]; intros config c' stderr e' i Hmark Hval.
  - simpl. intros Heq; inversion Heq; reflexivity.
  - cbn [scanLines].
    destruct (updateConfigLine config stderr (i + 1) text) as [[c1 e1]|] eqn:E;
      [|discriminate].
    intros Hrest.
    pose proof (updateConfigLine_keeps f _ _ _ _ _ _
                  (Hmark text (or_introl eq_refl)) Hval E) as H1.
    rewrite <- H1. apply (IH c1 c' e1 e' (i + 1)); [|congruence|exact Hrest].
    intros t Hin. apply Hmark. now right.
Qed.




Lemma updateConfigFromFile_nameless (file : option (list string))
      (config : rlogEnvConfig) :
  updateConfigFromFile file config = Panicked <->
  exists lines, file = Some lines /\ Exists namelessLine lines.
Proof.
  unfold updateConfigFromFile. destruct file as [lines|].
  - rewrite scanLines_nameless. split.
    + intros Hex. now exists lines.
    + intros (l & Heq & Hex). now inversion Heq; subst.
  - split; [discriminate | intros (l & Heq & _); discriminate].
Qed.

End FileFacts.

(** [updateConfigFromFile] panics exactly when the file can be opened and one
    of the lines that its scanner returns has a '=' and nothing but white space
    before it; a missing file, every other line, and the lines that the
    scanner does not return are harmless. *)
Theorem updateConfigFromFile_panics_iff `{Unicode} (file : option (list string))
        (config : rlogEnvConfig) :
  updateConfigFromFile file config = Panicked <->
  exists lines, file = Some lines /\ Exists namelessLine lines.
Proof. apply updateConfigFromFile_nameless. Qed.

(** No config file changes the path of the config file. *)
Theorem config_file_never_changes_its_path `{Unicode}
        (file : option (list string)) (config merged : rlogEnvConfig)
        (stderr : list diagnostic) :
  updateConfigFromFile file config = Returned (merged, stderr) ->
  confFile merged = confFile config.
Proof.
  unfold updateConfigFromFile. destruct file as [lines|].
  - apply scanLines_confFile.
  - intros Heq; inversion Heq; reflexivity.
Qed.

(** A file that tries to, marked and unmarked. *)
Lemma config_file_never_changes_its_path_witness :
  option_map confFile
    (@mergedFromFile asciiOnly
       ["RLOG_CONF_FILE=/tmp/b.conf"; "!RLOG_CONF_FILE=/tmp/c.conf"]
       (mkConfig "" "" "" "" "/tmp/a.conf" "" "" ""))
  = Some "/tmp/a.conf".
Proof.
  unfold mergedFromFile.
  destruct (@updateConfigFromFile asciiOnly
              (Some ["RLOG_CONF_FILE=/tmp/b.conf"; "!RLOG_CONF_FILE=/tmp/c.conf"])
              (mkConfig "" "" "" "" "/tmp/a.conf" "" "" ""))
    as [[c e]|] eqn:E; [|discriminate E].
  simpl. f_equal.
  exact (@config_file_never_changes_its_path asciiOnly _ _ _ _ E).
Defined.

(** Once a setting has a value, from the environment or from an earlier line
    of the config file, only a line with the priority mark for that setting
    changes it: among unmarked lines the first one wins. *)
Theorem set_value_changes_only_by_marked_line `{Unicode} (f : setting)
        (before after : list string) (config c1 c2 : rlogEnvConfig) :
  mergedFromFile before config = Some c1 ->
  settingValue f c1 <> EmptyString ->
  (forall text, In text after -> ~ marksSetting f text) ->
  mergedFromFile (before ++ after)%list config = Some c2 ->
  settingValue f c2 = settingValue f c1.
Proof.
  unfold mergedFromFile, updateConfigFromFile.
  rewrite scanLines_app.
  destruct (scanLines config [] 0 before) as [[cb eb]|]; [|discriminate].
  intros Heq Hval Hmark. inversion Heq; subst cb.
  destruct (scanLines c1 eb (0 + Z.of_nat (List.length before)) after)
    as [[ca ea]|] eqn:E; [|discriminate].
  intros Heq2; inversion Heq2; subst ca.
  exact (scanLines_keeps f after _ _ _ _ _ Hmark Hval E).
Qed.

(** Two unmarked lines for the log level: the first one stays. *)
Lemma set_value_changes_only_by_marked_line_witness :
  option_map logLevel
    (@mergedFromFile asciiOnly ["RLOG_LOG_LEVEL=WARN"; "RLOG_LOG_LEVEL=DEBUG"]
                     (mkConfig "" "" "" "" "" "" "" ""))
  = Some "WARN".
Proof.
  destruct (@mergedFromFile asciiOnly
              ["RLOG_LOG_LEVEL=WARN"; "RLOG_LOG_LEVEL=DEBUG"]
              (mkConfig "" "" "" "" "" "" "" "")) as [c2|] eqn:E;
    [|discriminate E].
  simpl. f_equal.
  apply (@set_value_changes_only_by_marked_line asciiOnly LogLevelSetting
           ["RLOG_LOG_LEVEL=WARN"] ["RLOG_LOG_LEVEL=DEBUG"]
           (mkConfig "" "" "" "" "" "" "" "")
           (mkConfig "WARN" "" "" "" "" "" "" "") c2).
  - reflexivity.
  - discriminate.
  - intros text [<-|[]] [_ Hn]. vm_compute in Hn. discriminate.
  - exact E.
Defined.



(** ** Initialization *)

Section InitFacts.
Context `{Unicode}.

(** What [initialize] returns, by the merged configuration. *)
Lemma initialize_returned (sys : system) (old : settings)
      (config : rlogEnvConfig) (g : settings) (stderr : list diagnostic) :
  initialize sys old config = Returned (g, stderr) ->
  exists m,
    updateConfigFromFile (readLines sys (configFilePath sys config)) config
    = Returned (m, stderr) /\
    logFilterSpec g = fromString (mkFilterSpec []) (logLevel m) false levelInfo /\
    traceFilterSpec g
    = fromString (mkFilterSpec []) (traceLevel m) true noTraceOutput /\
    settingDateTimeFormat g
    = (if negb (isTrueBoolString (logNoTime m))
       then timeLayout (logTimeFormat m) ++ " " else EmptyString) /\
    logWriterFile g
    = (if isEmpty (logFile m) then None
       else if canAppend sys (logFile m) then Some (logFile m)
            else logWriterFile old).
Proof.
  unfold initialize. fold (configFilePath sys config).
  destruct (updateConfigFromFile (readLines sys (configFilePath sys config))
                                 config) as [[m e]|]; [|discriminate].
  intros Heq; inversion Heq; subst. exists m. repeat split.
Qed.

Lemma timeLayout_nonempty (logTimeFormat : string) :
  timeLayout logTimeFormat <> EmptyString.
Proof.
  unfold timeLayout.
  repeat match goal with
         | |- context [if (?a =? ?b)%string then _ else _] =>
             destruct (a =? b)%string; [discriminate|]
         end.
  destruct logTimeFormat; simpl; discriminate.
Qed.

Lemma append_nonempty (a b : string) : b <> EmptyString -> a ++ b <> EmptyString.
Proof. destruct a; simpl; [auto | discriminate]. Qed.

End InitFacts.

(** Given [os.Args[0]], [init] panics, and the process with it, exactly when
    the config file named by RLOG_CONF_FILE, or /etc/rlog/<executable>.conf
    when that is not set, can be opened and one of the lines that the scanner
    returns for it has a '=' and no name before it. *)
Theorem init_panics_iff `{Unicode} (sys : system) (getenv : string -> string) :
  let path :=
    if isEmpty (getenv "RLOG_CONF_FILE")
    then "/etc/rlog/" ++ filepath.Base (executable sys) ++ ".conf"
    else getenv "RLOG_CONF_FILE" in
  init sys getenv = Panicked <->
  exists lines, readLines sys path = Some lines /\ Exists namelessLine lines.
Proof.
  cbv zeta. unfold init, initialize. cbn [confFile].
  rewrite <- updateConfigFromFile_nameless.
  destruct (updateConfigFromFile _ _) as [[m e]|] eqn:E.
  - split; [discriminate|]. intros Hp. rewrite Hp in E. discriminate.
  - split; [intros _; exact E | reflexivity].
Qed.

(** After [initialize], [Trace] with the depth -1 writes nothing, whatever the
    configuration: [basicLog] takes -1 for a message that is no trace and asks
    the log filters at the level TRACE, which no log filter reaches. *)
Theorem trace_at_minus_one_writes_nothing `{Unicode} (sys : system)
        (old : settings) (config : rlogEnvConfig) (g : settings)
        (stderr : list diagnostic) (caller : option string) :
  initialize sys old config = Returned (g, stderr) ->
  Trace_allowLog (logFilterSpec g) (traceFilterSpec g) caller notATrace = false.
Proof.
  intros Hi. destruct (initialize_returned _ _ _ _ _ Hi) as (m & _ & Hl & _).
  unfold Trace_allowLog, basicLog_allowLog.
  destruct (0 <? List.length (filters (traceFilterSpec g)))%nat; [|reflexivity].
  change (notATrace =? notATrace) with true. cbv iota.
  rewrite Hl, matchfilters_filters.
  apply matchfilters_range_above, fromString_log_range.
  split; discriminate.
Qed.

(** Trace level 5 for every file, and a trace call of depth -1. *)
Lemma trace_at_minus_one_writes_nothing_witness :
  Trace_allowLog
    (@fromString asciiOnly (mkFilterSpec []) "DEBUG" false levelInfo)
    (@fromString asciiOnly (mkFilterSpec []) "5" true noTraceOutput)
    (Some "/src/pkg/a.go") notATrace = false.
Proof.
  apply (@trace_at_minus_one_writes_nothing asciiOnly bareSystem zeroSettings
           (mkConfig "DEBUG" "5" "" "" "" "" "" "")
           (mkSettings false "2006-01-02T15:04:05Z07:00 "
                       "/etc/rlog/app.conf" (Some OsStderr) None
                       (@fromString asciiOnly (mkFilterSpec []) "DEBUG" false
                                    levelInfo)
                       (@fromString asciiOnly (mkFilterSpec []) "5" true
                                    noTraceOutput))
           [] (Some "/src/pkg/a.go")).
  reflexivity.
Defined.

(** [initialize] leaves the time format empty exactly when the merged
    RLOG_LOG_NOTIME is a true string; otherwise the format is a layout that is
    not empty, followed by one space. *)
Theorem time_format_empty_iff_notime `{Unicode} (sys : system) (old : settings)
        (config : rlogEnvConfig) (g : settings) (stderr : list diagnostic)
        (m : rlogEnvConfig) :
  initialize sys old config = Returned (g, stderr) ->
  mergedConfig sys config = Some m ->
  (settingDateTimeFormat g = EmptyString
   <-> isTrueBoolString (logNoTime m) = true) /\
  (isTrueBoolString (logNoTime m) = false ->
   settingDateTimeFormat g = timeLayout (logTimeFormat m) ++ " " /\
   timeLayout (logTimeFormat m) <> EmptyString).
Proof.
  intros Hi Hm.
  destruct (initialize_returned _ _ _ _ _ Hi) as (m' & Hu & _ & _ & Hf & _).
  unfold mergedConfig in Hm. rewrite Hu in Hm. inversion Hm; subst m'.
  rewrite Hf. destruct (isTrueBoolString (logNoTime m)); cbn [negb].
  - split; [tauto | discriminate].
  - split.
    + split; [|discriminate]. intros He. exfalso.
      revert He. apply append_nonempty. discriminate.
    + intros _. split; [reflexivity | apply timeLayout_nonempty].
Qed.

(** RLOG_LOG_NOTIME=yes in the environment. *)
Lemma time_format_empty_iff_notime_witness :
  settingDateTimeFormat
    (mkSettings false "" "/etc/rlog/app.conf" (Some OsStderr) None
                (mkFilterSpec [mkFilter "" levelInfo]) (mkFilterSpec []))
  = EmptyString
  <-> @isTrueBoolString asciiOnly "yes" = true.
Proof.
  apply (@time_format_empty_iff_notime asciiOnly bareSystem zeroSettings
           (mkConfig "" "" "" "" "" "" "yes" "")
           (mkSettings false "" "/etc/rlog/app.conf" (Some OsStderr) None
                       (mkFilterSpec [mkFilter "" levelInfo]) (mkFilterSpec []))
           [] (mkConfig "" "" "" "" "" "" "yes" "")); reflexivity.
Defined.

(** The names of the time formats count without regard to case: a format that
    differs only in case from one whose upper case is a name of the switch
    selects the same layout. *)
Theorem time_format_names_ignore_case `{Unicode} (format1 format2 : string) :
  sameIgnoringCase format1 format2 ->
  In (strings.ToUpper format1)
     ["ANSIC"; "UNIXDATE"; "RUBYDATE"; "RFC822"; "RFC822Z"; "RFC1123";
      "RFC1123Z"; "RFC3339"; "RFC3339NANO"; "KITCHEN"] ->
  timeLayout format1 = timeLayout format2.
Proof.
  unfold sameIgnoringCase, timeLayout. intros <-. cbn [In].
  intros [E|[E|[E|[E|[E|[E|[E|[E|[E|[E|[]]]]]]]]]]]; rewrite <- E; reflexivity.
Qed.

(** "rfc822" and "Rfc822". *)
Lemma time_format_names_ignore_case_witness :
  @timeLayout asciiOnly "rfc822" = @timeLayout asciiOnly "Rfc822".
Proof.
  apply (@time_format_names_ignore_case asciiOnly "rfc822" "Rfc822").
  - reflexivity.
  - simpl. tauto.
Defined.

(** When the log file named by the merged configuration cannot be opened,
    [initialize] leaves the file writer as it found it: nil after [init], the
    writer of the earlier file after a second [initialize]. *)
Theorem unopened_log_file_keeps_old_writer `{Unicode} (sys : system)
        (old : settings) (config : rlogEnvConfig) (g : settings)
        (stderr : list diagnostic) (m : rlogEnvConfig) :
  initialize sys old config = Returned (g, stderr) ->
  mergedConfig sys config = Some m ->
  logFile m <> EmptyString ->
  canAppend sys (logFile m) = false ->
  logWriterFile g = logWriterFile old.
Proof.
  intros Hi Hm Hne Hc.
  destruct (initialize_returned _ _ _ _ _ Hi) as (m' & Hu & _ & _ & _ & Hw).
  unfold mergedConfig in Hm. rewrite Hu in Hm. inversion Hm; subst m'.
  rewrite Hw, (proj2 (isEmpty_false _) Hne), Hc. reflexivity.
Qed.

(** A second initialization, with a log file that cannot be opened, after one
    that logged to /var/log/a.log. *)
Lemma unopened_log_file_keeps_old_writer_witness :
  logWriterFile
    (mkSettings false "2006-01-02T15:04:05Z07:00 " "/etc/rlog/app.conf"
                (Some OsStderr) (Some "/var/log/a.log")
                (mkFilterSpec [mkFilter "" levelInfo]) (mkFilterSpec []))
  = logWriterFile (mkSettings false "" "" None (Some "/var/log/a.log")
                              (mkFilterSpec []) (mkFilterSpec [])).
Proof.
  apply (@unopened_log_file_keeps_old_writer asciiOnly bareSystem
           (mkSettings false "" "" None (Some "/var/log/a.log")
                       (mkFilterSpec []) (mkFilterSpec []))
           (mkConfig "" "" "" "/nodir/b.log" "" "" "" "")
           (mkSettings false "2006-01-02T15:04:05Z07:00 "
                       "/etc/rlog/app.conf" (Some OsStderr)
                       (Some "/var/log/a.log")
                       (mkFilterSpec [mkFilter "" levelInfo]) (mkFilterSpec []))
           [] (mkConfig "" "" "" "/nodir/b.log" "" "" "" ""));
    try reflexivity.
  discriminate.
Defined.

(** With no log level and no trace level in the environment and no config
    file, [init] returns, writes no diagnostic, and leaves filters that accept
    a log message exactly at the level INFO or a more urgent one, for every
    caller, and no trace message at all. *)
Theorem init_defaults `{Unicode} (sys : system) (getenv : string -> string) :
  getenv "RLOG_LOG_LEVEL" = EmptyString ->
  getenv "RLOG_TRACE_LEVEL" = EmptyString ->
  (forall p, readLines sys p = None) ->
  exists g,
    init sys getenv = Returned (g, []) /\
    (forall (caller : option string) (level : Z),
        basicLog_allowLog (logFilterSpec g) (traceFilterSpec g) caller level
                          notATrace = (level <=? levelInfo)) /\
    (forall (caller : option string) (depth : Z),
        Trace_allowLog (logFilterSpec g) (traceFilterSpec g) caller depth
        = false).
Proof.
  intros Hl Ht Hr. unfold init, initialize. rewrite Hr.
  cbn [updateConfigFromFile logLevel traceLevel]. rewrite Hl, Ht.
  eexists. split; [reflexivity|]. cbn [logFilterSpec traceFilterSpec]. split.
  - intros caller level. unfold basicLog_allowLog.
    change (notATrace =? notATrace) with true. cbv iota.
    reflexivity.
  - intros caller depth. reflexivity.
Qed.

(** The empty environment on a system without config file. *)
Lemma init_defaults_witness :
  exists g, @init asciiOnly bareSystem emptyEnvironment = Returned (g, []).
Proof.
  destruct (@init_defaults asciiOnly bareSystem emptyEnvironment)
    as (g & Hg & _); try reflexivity.
  exists g. exact Hg.
Defined.

(** ** More on filter specifications *)

Lemma matchfilters_range_disabled (rules : list filter) (fileName : string)
      (depth : Z) :
  0 <= depth ->
  matchfilters_range (rules ++ [mkFilter EmptyString noTraceOutput])%list
                     fileName depth
  = matchfilters_range rules fileName depth.
Proof.
  intros Hd. induction rules as [|r rest IH].
  - cbn. apply Z.leb_gt. unfold noTraceOutput. lia.
  - cbn [app matchfilters_range]. now rewrite IH.
Qed.

(** Leaving out the global rule of a disabled trace axis changes no decision
    for a depth that is not negative: [fromString] on the trace axis decides
    as the patterned rules followed by the global rule would. *)
Theorem trace_fast_path_changes_no_decision `{Unicode} (s : string)
        (default : Z) (fileName : string) (depth : Z) :
  0 <= depth ->
  matchfilters (fromString (mkFilterSpec []) s true default) fileName depth
  = matchfilters
      (mkFilterSpec (patternedRules true s
                     ++ [mkFilter EmptyString
                                  (globalThreshold true s default)])%list)
      fileName depth.
Proof.
  intros Hd. rewrite !matchfilters_filters, fromString_filters.
  cbn [filters app negb orb].
  destruct (globalThreshold true s default =? noTraceOutput) eqn:E;
    cbn [negb]; [|reflexivity].
  apply Z.eqb_eq in E. rewrite E, app_nil_r.
  symmetry. now apply matchfilters_range_disabled.
Qed.

(** Trace level 5 for ip*, nothing for the other files. *)
Lemma trace_fast_path_changes_no_decision_witness :
  matchfilters (@fromString asciiOnly (mkFilterSpec []) "ip*=5" true
                            noTraceOutput) "net/ipaddr.go" 3
  = matchfilters
      (mkFilterSpec [mkFilter "ip*" 5; mkFilter "" noTraceOutput])
      "net/ipaddr.go" 3.
Proof.
  apply (@trace_fast_path_changes_no_decision asciiOnly "ip*=5" noTraceOutput
           "net/ipaddr.go" 3).
  discriminate.
Defined.

(** On the log axis the names of the levels count without regard to case:
    two tokens with the same pattern whose levels differ only in case do the
    same to the rules and the global level. *)
Theorem level_names_ignore_case `{Unicode} (st : list filter * Z)
        (tok1 tok2 : string) :
  countByte "=" tok1 = countByte "=" tok2 ->
  tokenPattern tok1 = tokenPattern tok2 ->
  sameIgnoringCase (tokenLevel tok1) (tokenLevel tok2) ->
  fromString_field false st tok1 = fromString_field false st tok2.
Proof.
  intros Hc Hp Hl. destruct st as [fs g].
  rewrite !fromString_field_rule. unfold tokenRule, levelOf.
  unfold sameIgnoringCase in Hl. now rewrite Hc, Hp, Hl.
Qed.

(** "a.go=debug" and "a.go=DEBUG". *)
Lemma level_names_ignore_case_witness :
  @fromString_field asciiOnly false ([], levelInfo) "a.go=debug"
  = @fromString_field asciiOnly false ([], levelInfo) "a.go=DEBUG".
Proof.
  apply (@level_names_ignore_case asciiOnly ([], levelInfo)
           "a.go=debug" "a.go=DEBUG"); reflexivity.
Defined.
